(** * Patch tiling and reassembly ([utils.py])

    A shallow embedding of [patch_dims], [create_patches],
    [assemble_patches], [safe_crop] and [get_final_output], together with
    the small part of NumPy and Python they rely on: array shapes, basic
    indexing with integers and slices, assignment with broadcasting and
    element-type conversion, [np.zeros], elementwise float32 arithmetic,
    true division followed by [np.ceil] / [math.floor], and [range] loops.

    Conventions.
    - Python integers and array extents are [Z].
    - An array is its shape and a total function from index lists to
      elements; only indices inside the shape are meaningful.
    - A call either returns, raises a Python exception, or reaches a
      conversion whose result C (and hence NumPy) leaves unspecified.
    - The quotient of two integers in double precision is kept as the exact
      fraction.  Taking its ceiling or floor agrees with the rounded
      quotient as long as the operands stay below 2^53 in absolute value;
      beyond that NumPy rounds the operands, and beyond 64 bits it raises
      [OverflowError].
    - [np.zeros] is modelled up to the point where the byte size of the
      buffer overflows 63 bits, where NumPy raises [ValueError].
    Statements about [patch_dims], [create_patches] and [assemble_patches]
    therefore carry a bound on their arguments: [(H + P) * (W + P) < 2^53]
    for an extent (H, W) tiled with patch size P keeps every integer
    exact, every loop index below 2^53 and every buffer below 2^57
    bytes. *)

From Stdlib Require Import ZArith List Bool Lia SpecFloat FinFun.
From Stdlib Require Import Strings.Byte.
Import ListNotations.
Local Open Scope Z_scope.

Set Implicit Arguments.

(** ** Outcomes of a call *)

Inductive exn : Type :=
| AssertionError
| IndexError
| ValueError
| OverflowError.

Inductive outcome (A : Type) : Type :=
| Ok (a : A)
| Raise (e : exn)
| Undefined.

Arguments Ok {A} a.
Arguments Raise {A} e.
Arguments Undefined {A}.

Definition bind {A B : Type} (m : outcome A) (k : A -> outcome B) : outcome B :=
  match m with
  | Ok a => k a
  | Raise e => Raise e
  | Undefined => Undefined
  end.

Notation "x <- m ;; k" := (bind m (fun x => k))
  (at level 61, m at next level, right associativity).

(** [assert cond, msg] *)
Definition assert (cond : bool) : outcome unit :=
  if cond then Ok tt else Raise AssertionError.

(** [for i in l: s = body(i, s)], stopping at the first exception. *)
Fixpoint for_ {S : Type} (l : list Z) (body : Z -> S -> outcome S) (s : S)
  : outcome S :=
  match l with
  | [] => Ok s
  | i :: l' => s' <- body i s ;; for_ l' body s'
  end.

(** [range(n)]: empty when [n <= 0]. *)
Definition range (n : Z) : list Z := map Z.of_nat (seq 0 (Z.to_nat n)).

Fixpoint mapM {A B : Type} (f : A -> outcome B) (l : list A) : outcome (list B) :=
  match l with
  | [] => Ok []
  | a :: l' => b <- f a ;; bs <- mapM f l' ;; Ok (b :: bs)
  end.

(** ** Element types *)

(** [np.float32] values: sign, mantissa and exponent (a finite value is
    [(-1)^s * m * 2^e]), signed zeros, infinities and NaN. *)
Definition float32 : Type := spec_float.

(** [np.uint8] values are the 256 bytes; [u8_to_Z] is the number a byte
    stands for and [u8_of_Z] reduces an integer modulo 256. *)
Definition uint8 : Type := byte.

Definition u8_to_Z (b : uint8) : Z := Z.of_N (Byte.to_N b).

Definition u8_of_Z (z : Z) : uint8 :=
  match Byte.of_N (Z.to_N (z mod 256)) with
  | Some b => b
  | None => x00
  end.

(** The fill value of [np.zeros] for an element type. *)
Class Dtype (B : Type) := zero : B.

(** Conversion performed when a value of type [A] is stored into an array
    whose element type is [B]. *)
Class Cast (A B : Type) := cast : A -> B.

#[export] Instance float32_dtype : Dtype float32 := S754_zero false.
#[export] Instance uint8_dtype : Dtype uint8 := x00.

(** Integer part of a [float32], rounding toward zero. *)
Definition f32_trunc (v : float32) : Z :=
  match v with
  | S754_finite s m e =>
      let t := if 0 <=? e then Z.pos m * 2 ^ e else Z.pos m / 2 ^ (- e) in
      if s then - t else t
  | _ => 0
  end.

(** Storing a [float32] into a [uint8] array drops the fractional part.
    For values in [0, 256) this is the C conversion; outside that range C
    leaves the result open and the usual outcome, reduction modulo 256
    (0 for an infinity or a NaN), is recorded here. *)
Definition f32_to_u8 (v : float32) : uint8 := u8_of_Z (f32_trunc v).

#[export] Instance cast_f32_f32 : Cast float32 float32 := fun v => v.
#[export] Instance cast_u8_u8 : Cast uint8 uint8 := fun v => v.
#[export] Instance cast_f32_u8 : Cast float32 uint8 := f32_to_u8.

(** [f32_is_int v n]: the float [v] has exactly the integer value [n]. *)
Definition f32_is_int (v : float32) (n : Z) : bool :=
  match v with
  | S754_zero _ => n =? 0
  | S754_finite s m e =>
      let sgn := if s then -1 else 1 in
      if 0 <=? e then n =? sgn * (Z.pos m * 2 ^ e)
      else (Z.pos m mod 2 ^ (- e) =? 0) && (n =? sgn * (Z.pos m / 2 ^ (- e)))
  | _ => false
  end.

(** ** Double-precision quotients *)

Inductive float64 : Type :=
| F64 (num den : Z)        (* the finite value num/den, den <> 0 *)
| F64_inf (neg : bool)
| F64_nan.

(** [a / b] on integers, the way NumPy evaluates it: division by zero
    gives an infinity or NaN (with a warning), never an exception.  The
    quotient is exact here; NumPy's is rounded, which is the same after
    [np.ceil] or [math.floor] for operands below 2^53 in absolute
    value. *)
Definition true_divide (a b : Z) : float64 :=
  if b =? 0 then
    if 0 <? a then F64_inf false
    else if a <? 0 then F64_inf true
    else F64_nan
  else F64 a b.

(** [np.ceil] *)
Definition np_ceil (v : float64) : float64 :=
  match v with
  | F64 n d => F64 (- ((- n) / d)) 1
  | _ => v
  end.

(** [.astype(int)]: rounds toward zero; the conversion of an infinity or a
    NaN is left open by C and raises nothing.  Valid for results inside
    the 64-bit range. *)
Definition astype_int (v : float64) : outcome Z :=
  match v with
  | F64 n d => Ok (Z.quot n d)
  | _ => Undefined
  end.

(** [math.floor] *)
Definition math_floor (v : float64) : outcome Z :=
  match v with
  | F64 n d => Ok (n / d)
  | F64_inf _ => Raise OverflowError
  | F64_nan => Raise ValueError
  end.

(** [a % b] where [b] is a NumPy integer: Python's sign convention, and 0
    (with a warning) when [b] is 0. *)
Definition np_mod (a b : Z) : Z := if b =? 0 then 0 else a mod b.

(** ** Arrays *)

Record ndarray (A : Type) : Type := mk_ndarray {
  shape : list Z;
  item : list Z -> A
}.

(** [np.zeros(shape, dtype)].  A negative dimension raises [ValueError];
    so does, in NumPy, a buffer whose byte size overflows 63 bits, which
    is outside this model. *)
Definition np_zeros {B : Type} `{Dtype B} (shp : list Z) : outcome (ndarray B) :=
  if existsb (fun n => n <? 0) shp then Raise ValueError
  else Ok (mk_ndarray shp (fun _ => zero)).

(** One component of a subscript: an integer [i] or a slice [lo:hi]. *)
Inductive index : Type :=
| At (i : Z)
| Slice (lo hi : option Z).

(** Bounds of [lo:hi] on an axis of length [n] (step 1), as Python's
    [slice.indices] computes them. *)
Definition clip (n : Z) (k : Z) : Z :=
  if k <? 0 then Z.max (k + n) 0 else Z.min k n.

Definition slice_bounds (lo hi : option Z) (n : Z) : Z * Z :=
  let s := match lo with Some k => clip n k | None => 0 end in
  let e := match hi with Some k => clip n k | None => n end in
  (s, Z.max 0 (e - s)).

(** A resolved subscript: per axis of the array, the start and, for a
    slice, the length ([None] marks an integer index, whose axis is
    dropped from the selection). *)
Definition region : Type := list (Z * option Z).

Fixpoint resolve (ix : list index) (shp : list Z) : outcome region :=
  match ix, shp with
  | [], _ => Ok (map (fun n => (0, Some n)) shp)
  | _ :: _, [] => Raise IndexError
  | At i :: ix', n :: shp' =>
      if (i <? - n) || (n <=? i) then Raise IndexError
      else r <- resolve ix' shp' ;;
           Ok ((if i <? 0 then i + n else i, None) :: r)
  | Slice lo hi :: ix', n :: shp' =>
      r <- resolve ix' shp' ;;
      let (s, len) := slice_bounds lo hi n in
      Ok ((s, Some len) :: r)
  end.

Fixpoint region_shape (r : region) : list Z :=
  match r with
  | [] => []
  | (_, Some len) :: r' => len :: region_shape r'
  | (_, None) :: r' => region_shape r'
  end.

(** Index in the array of the cell at position [rel] of the selection. *)
Fixpoint abs_index (r : region) (rel : list Z) : list Z :=
  match r with
  | [] => []
  | (s, None) :: r' => s :: abs_index r' rel
  | (s, Some _) :: r' =>
      match rel with
      | k :: rel' => (s + k) :: abs_index r' rel'
      | [] => s :: abs_index r' []
      end
  end.

(** Position in the selection of the array cell [idx], if it is selected. *)
Fixpoint rel_index (r : region) (idx : list Z) : option (list Z) :=
  match r, idx with
  | [], [] => Some []
  | (s, None) :: r', i :: idx' =>
      if i =? s then rel_index r' idx' else None
  | (s, Some len) :: r', i :: idx' =>
      if (s <=? i) && (i <? s + len)
      then option_map (cons (i - s)) (rel_index r' idx')
      else None
  | _, _ => None
  end.

(** [arr[ix]]: a view of the selected cells. *)
Definition getitem {A : Type} (arr : ndarray A) (ix : list index)
  : outcome (ndarray A) :=
  r <- resolve ix (shape arr) ;;
  Ok (mk_ndarray (region_shape r) (fun rel => item arr (abs_index r rel))).

(** Broadcasting of a value of shape [vs] to a target of shape [ts]:
    axes are matched from the right, an axis of length 1 is repeated, and
    leading axes of length 1 in excess of the target's rank are dropped.
    The result maps a target position to the value position read there. *)
Fixpoint aligned (vs ts : list Z) : option (list Z -> list Z) :=
  match vs, ts with
  | [], [] => Some (fun _ => [])
  | v :: vs', t :: ts' =>
      if (v =? t) || (v =? 1) then
        match aligned vs' ts' with
        | Some f =>
            Some (fun rel =>
                    match rel with
                    | k :: rel' => (if v =? 1 then 0 else k) :: f rel'
                    | [] => []
                    end)
        | None => None
        end
      else None
  | _, _ => None
  end.

Fixpoint strip_ones (k : nat) (vs : list Z) : list Z :=
  match k, vs with
  | S k', v :: vs' => if v =? 1 then strip_ones k' vs' else vs
  | _, _ => vs
  end.

Definition broadcast (vs ts : list Z) : option (list Z -> list Z) :=
  let vs' := strip_ones (length vs - length ts) vs in
  let dropped := (length vs - length vs')%nat in
  let pad := (length ts - length vs')%nat in
  if (length ts <? length vs')%nat then None
  else
    match aligned vs' (skipn pad ts) with
    | Some f => Some (fun rel => repeat 0 dropped ++ f (skipn pad rel))
    | None => None
    end.

(** [arr[ix] = value]: the selected cells receive the broadcast value,
    converted to the element type of [arr]; a value that cannot be
    broadcast to the selection raises [ValueError]. *)
Definition setitem {A B : Type} `{Cast A B}
  (arr : ndarray B) (ix : list index) (value : ndarray A)
  : outcome (ndarray B) :=
  r <- resolve ix (shape arr) ;;
  match broadcast (shape value) (region_shape r) with
  | None => Raise ValueError
  | Some f =>
      Ok (mk_ndarray (shape arr)
            (fun idx =>
               match rel_index r idx with
               | Some rel => cast (item value (f rel))
               | None => item arr idx
               end))
  end.

(** ** The functions of [utils.py] *)

(** [np.ceil(np.array(mat_size) / patch_size).astype(int)], for extents
    and patch sizes below 2^53 in absolute value (see [true_divide]). *)
Definition patch_dims (mat_size : list Z) (patch_size : Z) : outcome (list Z) :=
  mapM (fun n => astype_int (np_ceil (true_divide n patch_size))) mat_size.

(** [patch_id = y + x * patches_dim[0]] *)
Definition patch_id (rows y x : Z) : Z := y + x * rows.

Definition create_patches {A : Type} `{Cast A float32}
  (mat : ndarray A) (patch_size : Z) : outcome (ndarray float32) :=
  let mat_size := shape mat in
  _ <- assert (length mat_size =? 3)%nat ;;
  _ <- assert (last mat_size 0 =? 4) ;;
  patches_dim <- patch_dims (firstn 2 mat_size) patch_size ;;
  (* np.product; the 64-bit wrap-around is out of reach of a real shape *)
  let patches_count := fold_right Z.mul 1 patches_dim in
  patches <- np_zeros [patches_count; patch_size; patch_size; 4] ;;
  for_ (range (nth 0 patches_dim 0))
    (fun y patches =>
       let y_start := y * patch_size in
       for_ (range (nth 1 patches_dim 0))
         (fun x patches =>
            let x_start := x * patch_size in
            single_patch <-
              getitem mat [Slice (Some y_start) (Some (y_start + patch_size));
                           Slice (Some x_start) (Some (x_start + patch_size));
                           Slice None None] ;;
            let real_patch_h := nth 0 (shape single_patch) 0 in
            let real_patch_w := nth 1 (shape single_patch) 0 in
            setitem patches
              [At (patch_id (nth 0 patches_dim 0) y x);
               Slice None (Some real_patch_h);
               Slice None (Some real_patch_w); Slice None None]
              single_patch)
         patches)
    patches.

(** [y] and [x] of the block that receives patch [i], before scaling. *)
Definition block_row (patch_dim_h i : Z) : Z := np_mod i patch_dim_h.

Definition block_col (patch_dim_h i : Z) : outcome Z :=
  math_floor (true_divide i patch_dim_h).

Definition assemble_patches {A : Type} `{Cast A uint8}
  (pred_patches : ndarray A) (mat_size : list Z) (patch_size : Z)
  : outcome (ndarray uint8) :=
  dims <- patch_dims mat_size patch_size ;;
  match dims with
  | [patch_dim_h; patch_dim_w] =>
      result <- np_zeros [patch_size * patch_dim_h; patch_size * patch_dim_w] ;;
      patches_count <-
        match shape pred_patches with
        | n :: _ => Ok n
        | [] => Raise IndexError
        end ;;
      for_ (range patches_count)
        (fun i result =>
           let y := block_row patch_dim_h i * patch_size in
           c <- block_col patch_dim_h i ;;
           let x := c * patch_size in
           p <- getitem pred_patches [At i] ;;
           setitem result
             [Slice (Some y) (Some (y + patch_size));
              Slice (Some x) (Some (x + patch_size))]
             p)
        result
  | _ => Raise ValueError
  end.

(** [safe_crop(mat, x, y, crop_size=(img_rows, img_cols))].  The constants
    [img_rows] and [img_cols] come from [config] and [cv.resize] from
    OpenCV; neither is part of this file, so all three are parameters.
    The default of [crop_size] is the pair [(img_rows, img_cols)]. *)
Definition safe_crop {A : Type} `{Cast A float32}
  (img_rows img_cols : Z)
  (cv_resize : ndarray float32 -> Z * Z -> outcome (ndarray float32))
  (mat : ndarray A) (x y : Z) (crop_size : Z * Z)
  : outcome (ndarray float32) :=
  let (crop_height, crop_width) := crop_size in
  ret <- (if (length (shape mat) =? 2)%nat
          then np_zeros [crop_height; crop_width]
          else np_zeros [crop_height; crop_width; 3]) ;;
  crop <- getitem mat [Slice (Some y) (Some (y + crop_height));
                       Slice (Some x) (Some (x + crop_width))] ;;
  hw <- match firstn 2 (shape crop) with
        | [h; w] => Ok (h, w)
        | _ => Raise ValueError
        end ;;
  let (h, w) := hw in
  ret <- setitem ret [Slice (Some 0) (Some h); Slice (Some 0) (Some w)] crop ;;
  if negb ((crop_height =? img_rows) && (crop_width =? img_cols))
  then cv_resize ret (img_rows, img_cols)
  else Ok ret.

(** ** Elementwise arithmetic *)

(** [float32] arithmetic is IEEE 754 binary32 (24-bit significand),
    rounding to nearest even. *)
Definition f32_add : float32 -> float32 -> float32 := SFadd 24 128.
Definition f32_sub : float32 -> float32 -> float32 := SFsub 24 128.
Definition f32_mul : float32 -> float32 -> float32 := SFmul 24 128.

(** The [float32] 1.0. *)
Definition f32_one : float32 := S754_finite false 8388608 (-23).

(** A [float32] in its unique binary32 representation. *)
Definition f32_valid (v : float32) : bool := valid_binary 24 128 v.

(** Conversion of a [uint8] operand to [float32]; it is exact. *)
Definition u8_to_f32 (b : uint8) : float32 :=
  binary_normalize 24 128 (u8_to_Z b) 0 false.

(** An elementwise function of one array. *)
Definition np_map {A B : Type} (f : A -> B) (a : ndarray A) : ndarray B :=
  mk_ndarray (shape a) (fun idx => f (item a idx)).

(** Shape of the result of an elementwise operation on two arrays: the
    shapes are matched from the right (the lists here are reversed), equal
    axes are kept and an axis of length 1 takes the other length. *)
Fixpoint merge_axes (a b : list Z) : option (list Z) :=
  match a, b with
  | [], _ => Some b
  | _, [] => Some a
  | x :: a', y :: b' =>
      if (x =? y) || (y =? 1) then option_map (cons x) (merge_axes a' b')
      else if x =? 1 then option_map (cons y) (merge_axes a' b')
      else None
  end.

Definition broadcast_shapes (a b : list Z) : option (list Z) :=
  option_map (@rev Z) (merge_axes (rev a) (rev b)).

(** An elementwise operation [f] on two arrays, with broadcasting; shapes
    that cannot be broadcast together raise [ValueError]. *)
Definition np_binop {A B C : Type} (f : A -> B -> C)
  (a : ndarray A) (b : ndarray B) : outcome (ndarray C) :=
  match broadcast_shapes (shape a) (shape b) with
  | None => Raise ValueError
  | Some s =>
      match broadcast (shape a) s, broadcast (shape b) s with
      | Some fa, Some fb =>
          Ok (mk_ndarray s (fun idx => f (item a (fa idx)) (item b (fb idx))))
      | _, _ => Raise ValueError
      end
  end.

(** [get_final_output(out, trimap)] for a [float32] prediction and a
    [uint8] trimap.  The constant [unknown_code] comes from [config],
    which is not part of this file, so it is a parameter. *)
Definition get_final_output (unknown_code : Z)
  (out : ndarray float32) (trimap : ndarray uint8)
  : outcome (ndarray float32) :=
  (* mask = np.equal(trimap, unknown_code).astype(np.float32) *)
  let mask :=
    np_map (fun t => if u8_to_Z t =? unknown_code then f32_one else zero)
      trimap in
  (* (1 - mask) * trimap + mask * out *)
  known <- np_binop (fun m t => f32_mul m (u8_to_f32 t))
             (np_map (f32_sub f32_one) mask) trimap ;;
  unknown <- np_binop f32_mul mask out ;;
  np_binop f32_add known unknown.

(** ** Vocabulary of the statements *)

(** [is_ceil h p r]: [r] is the ceiling of [h / p] for a positive [p],
    that is, the least integer [r] with [r * p >= h]. *)
Definition is_ceil (h p r : Z) : Prop := (r - 1) * p < h <= r * p.

(** What iteration [i] of the loop of [assemble_patches] does to the cell
    [idx] of [result], whose value before the iteration is [v]. *)
Definition block_effect {A : Type} `{Cast A uint8}
  (pred_patches : ndarray A) (rows P i : Z) (idx : list Z) (v : uint8) : uint8 :=
  match idx with
  | [R; C] =>
      let y := i mod rows * P in
      let x := i / rows * P in
      if (y <=? R) && (R <? y + P) && ((x <=? C) && (C <? x + P))
      then cast (item pred_patches [i; R - y; C - x])
      else v
  | _ => v
  end.

(** What the iteration for grid cell [(y, x)] of the loops of
    [create_patches] does to the cell [idx] of [patches]. *)
Definition tile_effect {A : Type} `{Cast A float32}
  (mat : ndarray A) (H W rows P y x : Z) (idx : list Z) (v : float32) : float32 :=
  match idx with
  | [p; r; c; k] =>
      if (p =? patch_id rows y x)
         && ((0 <=? r) && (r <? Z.min (y * P + P) H - y * P))
         && ((0 <=? c) && (c <? Z.min (x * P + P) W - x * P))
         && ((0 <=? k) && (k <? 4))
      then cast (item mat [y * P + r; x * P + c; k])
      else v
  | _ => v
  end.

(** Tiling, keeping channel [ch] of every patch ([patches[:, :, :, ch]]),
    and reassembling with the extent of the source. *)
Definition roundtrip (mat : ndarray float32) (patch_size ch : Z)
  : outcome (ndarray uint8) :=
  patches <- create_patches mat patch_size ;;
  planes <- getitem patches
              [Slice None None; Slice None None; Slice None None; At ch] ;;
  assemble_patches planes (firstn 2 (shape mat)) patch_size.

(** The assembled array holds the values of channel [ch] of the source. *)
Definition reproduces (mat : ndarray float32) (ch : Z) (res : ndarray uint8)
  : Prop :=
  forall r c,
    0 <= r < nth 0 (shape mat) 0 -> 0 <= c < nth 1 (shape mat) 0 ->
    f32_is_int (item mat [r; c; ch]) (u8_to_Z (item res [r; c])) = true.

(** [in_bounds idx shp]: [idx] addresses a cell of an array of shape
    [shp]. *)
Definition in_bounds (idx shp : list Z) : Prop :=
  Forall2 (fun k n => 0 <= k < n) idx shp.

(** A [float32] that is a number: a zero or a finite value. *)
Definition f32_finite (v : float32) : bool :=
  match v with
  | S754_zero _ | S754_finite _ _ _ => true
  | _ => false
  end.

(** A [float32] with a negative zero replaced by the positive one. *)
Definition drop_zero_sign (o : float32) : float32 :=
  match o with
  | S754_zero _ => S754_zero false
  | _ => o
  end.

(** What [get_final_output] computes for one cell, from the trimap value
    [t] and the prediction [o] there. *)
Definition final_cell (unknown_code : Z) (t : uint8) (o : float32) : float32 :=
  let m := if u8_to_Z t =? unknown_code then f32_one else zero in
  f32_add (f32_mul (f32_sub f32_one m) (u8_to_f32 t)) (f32_mul m o).

(** ** Sample inputs *)

(** The [float32] holding a (small) integer. *)
Definition f32_of_Z (z : Z) : float32 :=
  match z with
  | Z0 => S754_zero false
  | Zpos p => S754_finite false p 0
  | Zneg p => S754_finite true p 0
  end.

(** A source of shape (6, 6, 4) whose cell [(r, c, k)] holds
    [100 r + 10 c + k]. *)
Definition sample_mat : ndarray float32 :=
  mk_ndarray [6; 6; 4]
    (fun idx =>
       match idx with
       | [r; c; k] => f32_of_Z (100 * r + 10 * c + k)
       | _ => zero
       end).

(** The same with three channels only. *)
Definition rgb_mat : ndarray float32 := mk_ndarray [6; 6; 3] (item sample_mat).

(** [n] patches of shape (P, P), patch [i] filled with [10 (i + 1)]. *)
Definition const_patches (n P : Z) : ndarray float32 :=
  mk_ndarray [n; P; P]
    (fun idx =>
       match idx with
       | i :: _ => f32_of_Z (10 * (i + 1))
       | [] => zero
       end).

(** A source of shape (2, 2, 4) filled with 0.5. *)
Definition half_mat : ndarray float32 :=
  mk_ndarray [2; 2; 4] (fun _ => S754_finite false 1 (-1)).

(** A source of shape (4, 4, 4) whose cell [(r, c, k)] holds [10 r + c]. *)
Definition small_mat : ndarray float32 :=
  mk_ndarray [4; 4; 4]
    (fun idx =>
       match idx with
       | [r; c; k] => f32_of_Z (10 * r + c)
       | _ => zero
       end).

(** A 2D array of shape (5, 7) whose cell [(r, c)] holds [10 r + c]. *)
Definition gray_mat : ndarray float32 :=
  mk_ndarray [5; 7]
    (fun idx =>
       match idx with
       | [r; c] => f32_of_Z (10 * r + c)
       | _ => zero
       end).

(** A single-channel array of shape (5, 7, 1) with the same values. *)
Definition mono_mat : ndarray float32 :=
  mk_ndarray [5; 7; 1]
    (fun idx =>
       match idx with
       | [r; c; _] => f32_of_Z (10 * r + c)
       | _ => zero
       end).

(** A one-dimensional array of length 9. *)
Definition line_mat : ndarray float32 :=
  mk_ndarray [9] (fun _ => f32_of_Z 1).

(** A stand-in for [cv.resize] that never answers. *)
Definition no_resize (a : ndarray float32) (dsize : Z * Z)
  : outcome (ndarray float32) := Undefined.

(** A source of shape (6, 6, 4) with values in [0, 60): cell [(r, c, k)]
    holds [10 r + c]. *)
Definition byte_mat : ndarray float32 :=
  mk_ndarray [6; 6; 4]
    (fun idx =>
       match idx with
       | [r; c; k] => f32_of_Z (10 * r + c)
       | _ => zero
       end).

(** [n] patches with a trailing channel axis, shape (n, P, P, 1). *)
Definition channel_patches (n P : Z) : ndarray float32 :=
  mk_ndarray [n; P; P; 1] (fun _ => f32_of_Z 7).

(** A trimap of shape (2, 2) holding 0, 128, 255 and 128. *)
Definition sample_trimap : ndarray uint8 :=
  mk_ndarray [2; 2]
    (fun idx =>
       match idx with
       | [0; 0] => x00
       | [1; 0] => xff
       | _ => x80
       end).

(** A prediction of shape (2, 2) holding 1.0, 7.0, an infinity and -0.0. *)
Definition sample_out : ndarray float32 :=
  mk_ndarray [2; 2]
    (fun idx =>
       match idx with
       | [0; 0] => f32_one
       | [0; 1] => u8_to_f32 x07
       | [1; 0] => S754_infinity false
       | _ => S754_zero true
       end).

(** * Properties *)

Unset Implicit Arguments.

(** ** Ceilings *)

Lemma is_ceil_unique h p r r' :
  0 < p -> is_ceil h p r -> is_ceil h p r' -> r = r'.
Proof. unfold is_ceil. intros Hp H1 H2. nia. Qed.

Lemma neg_div_is_ceil h p : 0 < p -> is_ceil h p (- ((- h) / p)).
Proof.
  intros Hp. unfold is_ceil.
  pose proof (Z.div_mod (- h) p ltac:(lia)) as E.
  pose proof (Z.mod_pos_bound (- h) p Hp) as B.
  nia.
Qed.

Lemma is_ceil_nonneg h p r : 0 < p -> 0 <= h -> is_ceil h p r -> 0 <= r.
Proof. unfold is_ceil. intros. nia. Qed.

Lemma is_ceil_pos h p r : 0 < p -> 0 < h -> is_ceil h p r -> 0 < r.
Proof. unfold is_ceil. intros. nia. Qed.

Lemma patch_dims_nonzero h w p :
  p <> 0 -> patch_dims [h; w] p = Ok [- ((- h) / p); - ((- w) / p)].
Proof.
  intros Hp. unfold patch_dims, true_divide. cbn [mapM].
  apply Z.eqb_neq in Hp. rewrite Hp. cbn [np_ceil astype_int bind].
  now rewrite !Z.quot_1_r.
Qed.

Lemma is_ceil_patch_dims h w p rows cols :
  0 < p -> is_ceil h p rows -> is_ceil w p cols ->
  patch_dims [h; w] p = Ok [rows; cols].
Proof.
  intros Hp Hr Hc. rewrite patch_dims_nonzero by lia.
  rewrite (is_ceil_unique h p rows (- ((- h) / p)) Hp Hr
             (neg_div_is_ceil h p Hp)).
  rewrite (is_ceil_unique w p cols (- ((- w) / p)) Hp Hc
             (neg_div_is_ceil w p Hp)).
  reflexivity.
Qed.

Lemma patch_dims_is_ceil h w p rows cols :
  0 < p -> patch_dims [h; w] p = Ok [rows; cols] ->
  is_ceil h p rows /\ is_ceil w p cols.
Proof.
  intros Hp. rewrite patch_dims_nonzero by lia. intros E.
  injection E as <- <-. split; now apply neg_div_is_ceil.
Qed.

(** ** Loops *)

Lemma range_In n i : In i (range n) <-> 0 <= i < n.
Proof.
  unfold range. rewrite in_map_iff. split.
  - intros (k & <- & Hk). apply in_seq in Hk. lia.
  - intros Hi. exists (Z.to_nat i). split; [lia|]. apply in_seq. lia.
Qed.

Lemma range_NoDup n : NoDup (range n).
Proof.
  unfold range. apply Injective_map_NoDup.
  - intros a b. lia.
  - apply seq_NoDup.
Qed.

Section ForLoop.
Context {B : Type}.
Variable shp : list Z.
Variable body : Z -> ndarray B -> outcome (ndarray B).
(** What iteration [i] does to the cell at [idx]. *)
Variable effect : Z -> list Z -> B -> B.

Lemma for_effect l :
  (forall i, In i l -> forall s, shape s = shp ->
     exists s', body i s = Ok s' /\ shape s' = shp /\
                forall idx, item s' idx = effect i idx (item s idx)) ->
  forall s, shape s = shp ->
    exists s', for_ l body s = Ok s' /\ shape s' = shp /\
      forall idx,
        item s' idx = fold_left (fun v i => effect i idx v) l (item s idx).
Proof.
  induction l as [|i l IH]; intros Hstep s Hs.
  - exists s. cbn. auto.
  - destruct (Hstep i (or_introl eq_refl) s Hs) as (s1 & E1 & Hs1 & I1).
    destruct (IH (fun j Hj => Hstep j (or_intror Hj)) s1 Hs1)
      as (s2 & E2 & Hs2 & I2).
    exists s2. cbn [for_]. rewrite E1. cbn [bind]. repeat split; auto.
    intros idx. rewrite I2, I1. reflexivity.
Qed.
End ForLoop.

Section Folds.
Context {B : Type}.
Variable g : Z -> B -> B.

Lemma fold_untouched l v :
  (forall i, In i l -> g i v = v) ->
  fold_left (fun v i => g i v) l v = v.
Proof.
  induction l as [|i l IH]; intros H; cbn; [reflexivity|].
  rewrite (H i) by now left. apply IH. intros j Hj. apply H. now right.
Qed.

Lemma fold_single l i0 v :
  NoDup l -> In i0 l ->
  (forall i w, In i l -> i <> i0 -> g i w = w) ->
  fold_left (fun v i => g i v) l v = g i0 v.
Proof.
  induction l as [|i l IH]; intros ND Hin H; [contradiction|].
  inversion ND as [|? ? Hni ND']; subst. cbn.
  destruct Hin as [->|Hin].
  - apply fold_untouched. intros j Hj. apply H; [now right|].
    intros ->. contradiction.
  - rewrite (H i v); [|now left|intros ->; contradiction].
    apply IH; auto. intros j w Hj. apply H. now right.
Qed.
End Folds.

(** ** Grid indices *)

Lemma patch_id_mod rows y x :
  0 <= y < rows -> patch_id rows y x mod rows = y.
Proof.
  intros H. unfold patch_id. rewrite Z.mod_add by lia. now apply Z.mod_small.
Qed.

Lemma patch_id_div rows y x :
  0 <= y < rows -> patch_id rows y x / rows = x.
Proof.
  intros H. unfold patch_id. rewrite Z.div_add by lia.
  rewrite Z.div_small by lia. lia.
Qed.

Lemma patch_id_inj rows y x y' x' :
  0 <= y < rows -> 0 <= y' < rows ->
  patch_id rows y x = patch_id rows y' x' -> y = y' /\ x = x'.
Proof.
  intros Hy Hy' E. split.
  - rewrite <- (patch_id_mod rows y x Hy), E. now apply patch_id_mod.
  - rewrite <- (patch_id_div rows y x Hy), E. now apply patch_id_div.
Qed.

Lemma patch_id_range rows cols y x :
  0 <= y < rows -> 0 <= x < cols -> 0 <= patch_id rows y x < rows * cols.
Proof. unfold patch_id. intros. nia. Qed.

Lemma cell_of_index rows cols i :
  0 <= i < rows * cols -> 0 < rows ->
  0 <= i mod rows < rows /\ 0 <= i / rows < cols /\
  patch_id rows (i mod rows) (i / rows) = i.
Proof.
  intros Hi Hr.
  pose proof (Z.mod_pos_bound i rows Hr).
  pose proof (Z.div_mod i rows ltac:(lia)).
  assert (0 <= i / rows) by (apply Z.div_pos; lia).
  assert (i / rows < cols) by (apply Z.div_lt_upper_bound; lia).
  unfold patch_id. repeat split; lia.
Qed.

(** ** Subscripts *)

Lemma clip_in n k : 0 <= k <= n -> clip n k = k.
Proof. intros H. unfold clip. destruct (Z.ltb_spec k 0); lia. Qed.

Lemma clip_above n k : 0 <= n <= k -> clip n k = n.
Proof. intros H. unfold clip. destruct (Z.ltb_spec k 0); lia. Qed.

Lemma slice_bounds_in lo hi n :
  0 <= lo <= hi -> hi <= n ->
  slice_bounds (Some lo) (Some hi) n = (lo, hi - lo).
Proof.
  intros H1 H2. unfold slice_bounds. rewrite !clip_in by lia. f_equal. lia.
Qed.

Lemma slice_bounds_cut lo hi n :
  0 <= lo <= hi -> lo <= n ->
  slice_bounds (Some lo) (Some hi) n = (lo, Z.min hi n - lo).
Proof.
  intros H1 H2. unfold slice_bounds. rewrite (clip_in n lo) by lia.
  unfold clip. destruct (Z.ltb_spec hi 0); [lia|]. f_equal. lia.
Qed.

Lemma slice_bounds_upto hi n :
  0 <= hi <= n -> slice_bounds None (Some hi) n = (0, hi).
Proof.
  intros H. unfold slice_bounds. rewrite clip_in by lia. f_equal. lia.
Qed.

Lemma broadcast_same2 a b :
  broadcast [a; b] [a; b] =
  Some (fun rel =>
          match rel with
          | k :: rel' =>
              (if a =? 1 then 0 else k) ::
              match rel' with
              | k' :: _ => [if b =? 1 then 0 else k']
              | [] => []
              end
          | [] => []
          end).
Proof.
  unfold broadcast.
  cbn [length Nat.sub strip_ones Nat.ltb Nat.leb skipn aligned repeat app].
  rewrite !Z.eqb_refl. reflexivity.
Qed.

(** ** The loop of [assemble_patches] *)

Section Assemble.
Context {A : Type} `{Cast A uint8}.
Variable pred_patches : ndarray A.
Variables n rows cols P : Z.
Hypothesis shape_pred : shape pred_patches = [n; P; P].
Hypothesis P_pos : 0 < P.

Lemma assemble_step i (res : ndarray uint8) :
  0 < rows -> 0 <= i < n -> i < rows * cols ->
  shape res = [P * rows; P * cols] ->
  exists res',
    (c <- block_col rows i ;;
     p <- getitem pred_patches [At i] ;;
     setitem res
       [Slice (Some (block_row rows i * P)) (Some (block_row rows i * P + P));
        Slice (Some (c * P)) (Some (c * P + P))] p) = Ok res' /\
    shape res' = [P * rows; P * cols] /\
    forall idx,
      item res' idx = block_effect pred_patches rows P i idx (item res idx).
Proof.
  intros Hr Hi Hlt Hs.
  destruct (cell_of_index rows cols i ltac:(lia) Hr) as (Hy & Hx & _).
  unfold block_col, block_row, true_divide, np_mod.
  replace (rows =? 0) with false by (symmetry; apply Z.eqb_neq; lia).
  cbn [math_floor bind].
  unfold getitem. rewrite shape_pred. cbn [resolve].
  replace ((i <? - n) || (n <=? i)) with false
    by (symmetry; apply orb_false_iff; split;
        [apply Z.ltb_ge|apply Z.leb_gt]; lia).
  replace (i <? 0) with false by (symmetry; apply Z.ltb_ge; lia).
  cbn [bind map slice_bounds region_shape].
  unfold setitem. rewrite Hs. cbn [resolve map bind shape].
  rewrite !slice_bounds_in by nia.
  cbn [bind region_shape].
  replace (i mod rows * P + P - i mod rows * P) with P by lia.
  replace (i / rows * P + P - i / rows * P) with P by lia.
  rewrite broadcast_same2.
  eexists. split; [reflexivity|]. split; [reflexivity|].
  intros idx. cbn [item].
  destruct idx as [|R [|C [|? ?]]]; cbn [rel_index block_effect];
    try reflexivity.
  - destruct ((i mod rows * P <=? R) && (R <? i mod rows * P + P));
      reflexivity.
  - destruct (Z.leb_spec (i mod rows * P) R),
             (Z.ltb_spec R (i mod rows * P + P));
      cbn [andb option_map]; try reflexivity.
    destruct (Z.leb_spec (i / rows * P) C),
             (Z.ltb_spec C (i / rows * P + P));
      cbn [andb option_map abs_index]; try reflexivity.
    do 3 f_equal.
    destruct (Z.eqb_spec P 1); f_equal; try lia. f_equal; lia.
  - destruct ((i mod rows * P <=? R) && (R <? i mod rows * P + P));
      cbn [option_map]; try reflexivity.
    destruct ((i / rows * P <=? C) && (C <? i / rows * P + P)); reflexivity.
Qed.

(** A block receives its own patch... *)
Lemma block_effect_self i r c v :
  0 <= r < P -> 0 <= c < P ->
  block_effect pred_patches rows P i
    [i mod rows * P + r; i / rows * P + c] v
  = cast (item pred_patches [i; r; c]).
Proof.
  intros Hr Hc. unfold block_effect.
  replace (_ && _) with true.
  - replace (i mod rows * P + r - i mod rows * P) with r by lia.
    replace (i / rows * P + c - i / rows * P) with c by lia.
    reflexivity.
  - symmetry. rewrite !andb_true_iff.
    repeat split; first [apply Z.leb_le | apply Z.ltb_lt]; lia.
Qed.

(** ... and is left alone by every other iteration. *)
Lemma block_effect_other i j r c v :
  0 < rows -> i <> j -> 0 <= r < P -> 0 <= c < P ->
  block_effect pred_patches rows P j
    [i mod rows * P + r; i / rows * P + c] v = v.
Proof.
  intros Hr Hij Hr' Hc. unfold block_effect.
  destruct (_ && _) eqn:E; [|reflexivity]. exfalso.
  rewrite !andb_true_iff in E. destruct E as ((E1 & E2) & E3 & E4).
  apply Z.leb_le in E1, E3. apply Z.ltb_lt in E2, E4.
  assert (j mod rows = i mod rows) by nia.
  assert (j / rows = i / rows) by nia.
  pose proof (Z.div_mod i rows ltac:(lia)).
  pose proof (Z.div_mod j rows ltac:(lia)).
  apply Hij. congruence.
Qed.

Variables H0 W0 : Z.
Hypothesis H0_nonneg : 0 <= H0.
Hypothesis W0_nonneg : 0 <= W0.
Hypothesis dims : patch_dims [H0; W0] P = Ok [rows; cols].

Lemma grid_nonneg : 0 <= rows /\ 0 <= cols.
Proof.
  destruct (patch_dims_is_ceil _ _ _ _ _ P_pos dims) as [Hr Hc].
  split.
  - exact (is_ceil_nonneg H0 P rows P_pos H0_nonneg Hr).
  - exact (is_ceil_nonneg W0 P cols P_pos W0_nonneg Hc).
Qed.

(** With no more patches than grid cells the loop runs to completion. *)
Lemma assemble_run :
  n <= rows * cols ->
  exists res,
    assemble_patches pred_patches [H0; W0] P = Ok res /\
    shape res = [P * rows; P * cols] /\
    forall idx,
      item res idx =
      fold_left (fun v i => block_effect pred_patches rows P i idx v)
        (range n) zero.
Proof.
  intros Hn. destruct grid_nonneg as [Hr Hc].
  unfold assemble_patches. rewrite dims. cbn [bind].
  unfold np_zeros. cbn [existsb].
  replace (P * rows <? 0) with false by (symmetry; apply Z.ltb_ge; nia).
  replace (P * cols <? 0) with false by (symmetry; apply Z.ltb_ge; nia).
  cbn [orb bind]. rewrite shape_pred. cbn [bind].
  apply (for_effect [P * rows; P * cols]); [|reflexivity].
  intros i Hi s Hs. apply range_In in Hi.
  apply assemble_step; auto; nia.
Qed.
End Assemble.

(** ** The loops of [create_patches] *)

Lemma broadcast_same3 a b c :
  broadcast [a; b; c] [a; b; c] =
  Some (fun rel =>
          match rel with
          | k :: rel' =>
              (if a =? 1 then 0 else k) ::
              match rel' with
              | k' :: rel'' =>
                  (if b =? 1 then 0 else k') ::
                  match rel'' with
                  | k'' :: _ => [if c =? 1 then 0 else k'']
                  | [] => []
                  end
              | [] => []
              end
          | [] => []
          end).
Proof.
  unfold broadcast.
  cbn [length Nat.sub strip_ones Nat.ltb Nat.leb skipn aligned repeat app].
  rewrite !Z.eqb_refl. reflexivity.
Qed.

Section Tile.
Context {A : Type} `{Cast A float32}.
Variable mat : ndarray A.
Variables H0 W0 rows cols P : Z.
Hypothesis shape_mat : shape mat = [H0; W0; 4].
Hypothesis P_pos : 0 < P.
Hypothesis rows_ceil : is_ceil H0 P rows.
Hypothesis cols_ceil : is_ceil W0 P cols.

Lemma tile_step cnt y x (patches : ndarray float32) :
  cnt = rows * cols ->
  0 <= y < rows -> 0 <= x < cols ->
  shape patches = [cnt; P; P; 4] ->
  exists patches',
    (single_patch <-
       getitem mat [Slice (Some (y * P)) (Some (y * P + P));
                    Slice (Some (x * P)) (Some (x * P + P));
                    Slice None None] ;;
     setitem patches
       [At (patch_id rows y x);
        Slice None (Some (nth 0 (shape single_patch) 0));
        Slice None (Some (nth 1 (shape single_patch) 0)); Slice None None]
       single_patch) = Ok patches' /\
    shape patches' = [cnt; P; P; 4] /\
    forall idx,
      item patches' idx =
      tile_effect mat H0 W0 rows P y x idx (item patches idx).
Proof.
  intros Hcnt Hy Hx Hs.
  pose proof (patch_id_range rows cols y x Hy Hx) as Hid.
  unfold is_ceil in *.
  assert (0 <= y * P < H0) by nia.
  assert (0 <= x * P < W0) by nia.
  unfold getitem. rewrite shape_mat. cbn [resolve map bind].
  change (slice_bounds None None 4) with (0, 4).
  rewrite !slice_bounds_cut by lia.
  cbn [bind region_shape shape nth].
  unfold setitem. rewrite Hs. cbn [resolve map bind shape].
  change (slice_bounds None None 4) with (0, 4).
  replace ((patch_id rows y x <? - cnt) || (cnt <=? patch_id rows y x))
    with false
    by (symmetry; apply orb_false_iff; split;
        [apply Z.ltb_ge|apply Z.leb_gt]; lia).
  replace (patch_id rows y x <? 0) with false
    by (symmetry; apply Z.ltb_ge; lia).
  rewrite !slice_bounds_upto by lia.
  cbn [bind region_shape].
  rewrite broadcast_same3.
  eexists. split; [reflexivity|]. split; [reflexivity|].
  intros idx. cbn [item].
  destruct idx as [|p [|r [|c [|k [|? ?]]]]]; cbn [rel_index tile_effect];
    try reflexivity.
  all: rewrite (Z.eqb_sym p).
  all: destruct (Z.eqb_spec (patch_id rows y x) p); cbn [andb];
    try reflexivity.
  all: rewrite ?Z.add_0_l.
  all: destruct ((0 <=? r) && (r <? Z.min (y * P + P) H0 - y * P)) eqn:Er;
    cbn [option_map andb]; try reflexivity.
  all: destruct ((0 <=? c) && (c <? Z.min (x * P + P) W0 - x * P)) eqn:Ec;
    cbn [option_map andb]; try reflexivity.
  all: change (0 + 4) with 4.
  all: destruct ((0 <=? k) && (k <? 4)) eqn:Ek;
    cbn [option_map andb abs_index]; try reflexivity.
  rewrite !Z.sub_0_r. change (4 =? 1) with false. cbv iota.
  apply andb_true_iff in Er, Ec. destruct Er as [Er1 Er2], Ec as [Ec1 Ec2].
  apply Z.leb_le in Er1, Ec1. apply Z.ltb_lt in Er2, Ec2.
  do 3 f_equal.
  - destruct (Z.eqb_spec (Z.min (y * P + P) H0 - y * P) 1); lia.
  - f_equal. destruct (Z.eqb_spec (Z.min (x * P + P) W0 - x * P) 1); lia.
Qed.

(** The cell [(y, x)] fills its own patch with the part of the source
    that exists... *)
Lemma tile_effect_self y x r c k v :
  0 <= y < rows -> 0 <= x < cols ->
  0 <= r < P -> 0 <= c < P -> 0 <= k < 4 ->
  tile_effect mat H0 W0 rows P y x [patch_id rows y x; r; c; k] v
  = if (y * P + r <? H0) && (x * P + c <? W0)
    then cast (item mat [y * P + r; x * P + c; k])
    else v.
Proof.
  intros Hy Hx Hr Hc Hk. unfold tile_effect. rewrite Z.eqb_refl.
  replace ((0 <=? k) && (k <? 4)) with true
    by (symmetry; apply andb_true_iff; split;
        [apply Z.leb_le|apply Z.ltb_lt]; lia).
  replace (0 <=? r) with true by (symmetry; apply Z.leb_le; lia).
  replace (0 <=? c) with true by (symmetry; apply Z.leb_le; lia).
  cbn [andb]. rewrite andb_true_r.
  replace (r <? Z.min (y * P + P) H0 - y * P) with (y * P + r <? H0).
  2:{ destruct (Z.ltb_spec (y * P + r) H0),
               (Z.ltb_spec r (Z.min (y * P + P) H0 - y * P)); lia. }
  replace (c <? Z.min (x * P + P) W0 - x * P) with (x * P + c <? W0).
  2:{ destruct (Z.ltb_spec (x * P + c) W0),
               (Z.ltb_spec c (Z.min (x * P + P) W0 - x * P)); lia. }
  reflexivity.
Qed.

(** ... and leaves the patches of the other cells alone. *)
Lemma tile_effect_other y x y' x' r c k v :
  0 <= y < rows -> 0 <= y' < rows -> (y', x') <> (y, x) ->
  tile_effect mat H0 W0 rows P y' x' [patch_id rows y x; r; c; k] v = v.
Proof.
  intros Hy Hy' Hne. unfold tile_effect.
  destruct (Z.eqb_spec (patch_id rows y x) (patch_id rows y' x')) as [E|E];
    [|reflexivity].
  exfalso. apply Hne.
  destruct (patch_id_inj rows y x y' x' Hy Hy' E) as [-> ->]. reflexivity.
Qed.

Hypothesis H0_nonneg : 0 <= H0.
Hypothesis W0_nonneg : 0 <= W0.

Lemma create_run :
  exists patches,
    create_patches mat P = Ok patches /\
    shape patches = [rows * cols; P; P; 4] /\
    forall idx,
      item patches idx =
      fold_left
        (fun v y =>
           fold_left (fun v x => tile_effect mat H0 W0 rows P y x idx v)
             (range cols) v)
        (range rows) zero.
Proof.
  assert (rows = - ((- H0) / P)) as Er
    by (eapply is_ceil_unique; eauto using neg_div_is_ceil).
  assert (cols = - ((- W0) / P)) as Ec
    by (eapply is_ceil_unique; eauto using neg_div_is_ceil).
  pose proof (is_ceil_nonneg _ _ _ P_pos H0_nonneg rows_ceil) as Hr.
  pose proof (is_ceil_nonneg _ _ _ P_pos W0_nonneg cols_ceil) as Hc.
  unfold create_patches. rewrite shape_mat.
  cbn [length Nat.eqb assert bind last firstn].
  change (4 =? 4) with true. cbn [assert bind].
  rewrite patch_dims_nonzero by lia. rewrite <- Er, <- Ec.
  cbn [bind fold_right nth]. rewrite Z.mul_1_r.
  unfold np_zeros. cbn [existsb].
  replace (rows * cols <? 0) with false by (symmetry; apply Z.ltb_ge; nia).
  replace (P <? 0) with false by (symmetry; apply Z.ltb_ge; lia).
  change (4 <? 0) with false. cbn [orb bind].
  apply (for_effect [rows * cols; P; P; 4] _
           (fun y idx v =>
              fold_left (fun v x => tile_effect mat H0 W0 rows P y x idx v)
                (range cols) v)); [|reflexivity].
  intros y Hy s Hs. apply range_In in Hy.
  apply (for_effect [rows * cols; P; P; 4] _
           (fun x idx v => tile_effect mat H0 W0 rows P y x idx v));
    [|exact Hs].
  intros x Hx s' Hs'. apply range_In in Hx.
  now apply tile_step.
Qed.

(** Content of the patch of grid cell [(y, x)] after tiling. *)
Lemma create_cell patches y x r c k :
  create_patches mat P = Ok patches ->
  0 <= y < rows -> 0 <= x < cols ->
  0 <= r < P -> 0 <= c < P -> 0 <= k < 4 ->
  item patches [patch_id rows y x; r; c; k]
  = if (y * P + r <? H0) && (x * P + c <? W0)
    then cast (item mat [y * P + r; x * P + c; k])
    else zero.
Proof.
  intros E Hy Hx Hr Hc Hk.
  destruct create_run as (patches' & E' & _ & I).
  rewrite E in E'. injection E' as <-. rewrite I.
  rewrite (fold_single _ (range rows) y);
    [|apply range_NoDup|now apply range_In|].
  - rewrite (fold_single _ (range cols) x);
      [|apply range_NoDup|now apply range_In|].
    + now apply tile_effect_self.
    + intros x' w _ Hne. apply tile_effect_other; auto. congruence.
  - intros y' w Hy' Hne. apply range_In in Hy'. apply fold_untouched.
    intros x' _. apply tile_effect_other; auto. congruence.
Qed.
End Tile.

(** ** Grid dimensions *)

(** C8: for a 2D extent of non-negative integers and a positive patch
    size, all below 2^53 (the integers that double precision holds
    exactly), [patch_dims] returns exactly the pair of ceilings
    [(ceil (height / P), ceil (width / P))], and each component is what
    [patch_dims] computes for that axis alone. *)
Theorem patch_dims_ceil (height width P : Z) :
  0 <= height < 2 ^ 53 -> 0 <= width < 2 ^ 53 -> 0 < P < 2 ^ 53 ->
  exists rows cols,
    patch_dims [height; width] P = Ok [rows; cols] /\
    is_ceil height P rows /\ is_ceil width P cols /\
    patch_dims [height] P = Ok [rows] /\
    patch_dims [width] P = Ok [cols].
Proof.
  intros _ _ [HP _].
  exists (- ((- height) / P)), (- ((- width) / P)).
  split; [apply patch_dims_nonzero; lia|].
  split; [now apply neg_div_is_ceil|].
  split; [now apply neg_div_is_ceil|].
  unfold patch_dims, true_divide. cbn [mapM].
  replace (P =? 0) with false by (symmetry; apply Z.eqb_neq; lia).
  cbn [np_ceil astype_int bind]. now rewrite !Z.quot_1_r.
Qed.

Lemma patch_dims_ceil_witness :
  (0 <= 10 < 2 ^ 53 /\ 0 <= 6 < 2 ^ 53 /\ 0 < 4 < 2 ^ 53) /\
  patch_dims [10; 6] 4 = Ok [3; 2] /\ is_ceil 10 4 3 /\ is_ceil 6 4 2.
Proof.
  split; [lia|].
  destruct (patch_dims_ceil 10 6 4) as (rows & cols & E & Hr & Hc & _);
    [lia | lia | lia |].
  assert (E' : patch_dims [10; 6] 4 = Ok [3; 2]) by reflexivity.
  rewrite E' in E. injection E as <- <-. auto.
Defined.

(** C9: for every extent and every positive patch size, all below 2^53
    in absolute value, the grid returned by [patch_dims] covers the
    extent: [rows * P >= H] and [cols * P >= W]. *)
Theorem patch_dims_covers (H W P : Z) :
  - 2 ^ 53 < H < 2 ^ 53 -> - 2 ^ 53 < W < 2 ^ 53 -> 0 < P < 2 ^ 53 ->
  exists rows cols,
    patch_dims [H; W] P = Ok [rows; cols] /\ rows * P >= H /\ cols * P >= W.
Proof.
  intros _ _ [HP _].
  exists (- ((- H) / P)), (- ((- W) / P)).
  split; [apply patch_dims_nonzero; lia|].
  pose proof (neg_div_is_ceil H P HP) as Hr.
  pose proof (neg_div_is_ceil W P HP) as Hc.
  unfold is_ceil in *. lia.
Qed.

Lemma patch_dims_covers_witness :
  (- 2 ^ 53 < 10 < 2 ^ 53 /\ - 2 ^ 53 < 6 < 2 ^ 53 /\ 0 < 4 < 2 ^ 53) /\
  exists rows cols,
    patch_dims [10; 6] 4 = Ok [rows; cols] /\ rows * 4 >= 10 /\ cols * 4 >= 6.
Proof.
  split; [lia|].
  apply (patch_dims_covers 10 6 4); lia.
Defined.

Lemma mapM_astype_no_raise (f : Z -> float64) l :
  forall e, mapM (fun n => astype_int (f n)) l <> Raise e.
Proof.
  induction l as [|a l IH]; intros e; cbn [mapM]; [discriminate|].
  destruct (f a); cbn [astype_int bind]; try discriminate.
  destruct (mapM _ l) as [bs|e'|] eqn:E; cbn [bind]; try discriminate.
  exfalso. now apply (IH e').
Qed.

Lemma patch_dims_no_raise mat_size P e : patch_dims mat_size P <> Raise e.
Proof. unfold patch_dims. apply mapM_astype_no_raise. Qed.

(** C6, as the code has it: [patch_dims] does not check the patch size.
    For an extent and a patch size below 2^53 in absolute value it
    raises no exception, whether the patch size is positive, zero or
    negative, and for every non-zero patch size it returns the per-axis
    ceilings of the quotients; for a positive patch size these are the
    grid dimensions. *)
Theorem patch_dims_unguarded (H W P : Z) :
  - 2 ^ 53 < H < 2 ^ 53 -> - 2 ^ 53 < W < 2 ^ 53 ->
  - 2 ^ 53 < P < 2 ^ 53 ->
  (forall e, patch_dims [H; W] P <> Raise e) /\
  (P <> 0 ->
   patch_dims [H; W] P = Ok [- ((- H) / P); - ((- W) / P)]) /\
  (0 < P ->
   exists rows cols,
     patch_dims [H; W] P = Ok [rows; cols] /\
     is_ceil H P rows /\ is_ceil W P cols).
Proof.
  intros _ _ _.
  split; [intros e; apply patch_dims_no_raise|].
  split; [apply patch_dims_nonzero|].
  intros HP. exists (- ((- H) / P)), (- ((- W) / P)).
  split; [apply patch_dims_nonzero; lia|].
  split; now apply neg_div_is_ceil.
Qed.

Lemma patch_dims_unguarded_witness :
  (- 2 ^ 53 < 10 < 2 ^ 53 /\ - 2 ^ 53 < -4 < 2 ^ 53 /\
   - 2 ^ 53 < 0 < 2 ^ 53) /\
  patch_dims [10; 10] (-4) = Ok [-2; -2] /\
  forall e, patch_dims [10; 10] 0 <> Raise e.
Proof.
  split; [lia|]. split.
  - apply (proj1 (proj2 (patch_dims_unguarded 10 10 (-4)
                           ltac:(lia) ltac:(lia) ltac:(lia)))).
    lia.
  - apply (proj1 (patch_dims_unguarded 10 10 0
                    ltac:(lia) ltac:(lia) ltac:(lia))).
Defined.

(** C6 fails as stated: with the non-positive patch size -4 the call
    returns normally. *)
Lemma patch_dims_negative_size_returns :
  -4 <= 0 /\ patch_dims [10; 10] (-4) = Ok [-2; -2] /\
  forall e, patch_dims [10; 10] (-4) <> Raise e.
Proof. split; [lia|]. split; [reflexivity|]. intros e. discriminate. Qed.

(** ** Reassembly *)

Lemma rows_pos_of_index rows cols i :
  0 <= rows -> 0 <= i < rows * cols -> 0 < rows.
Proof.
  intros Hr Hi. destruct (Z.eq_dec rows 0) as [->|]; [|lia].
  rewrite Z.mul_0_l in Hi. lia.
Qed.

Section AssembleBlocks.
Context {A : Type} `{Cast A uint8}.
Variable pred_patches : ndarray A.
Variables n rows cols P H0 W0 : Z.
Hypothesis P_pos : 0 < P.
Hypothesis H0_nonneg : 0 <= H0.
Hypothesis W0_nonneg : 0 <= W0.
Hypothesis dims : patch_dims [H0; W0] P = Ok [rows; cols].
Hypothesis shape_pred : shape pred_patches = [n; P; P].
Hypothesis n_le : n <= rows * cols.
Variable res : ndarray uint8.
Hypothesis run : assemble_patches pred_patches [H0; W0] P = Ok res.

Lemma assemble_shape : shape res = [P * rows; P * cols].
Proof.
  destruct (assemble_run pred_patches n rows cols P shape_pred P_pos
              H0 W0 H0_nonneg W0_nonneg dims n_le) as (res' & E & S & _).
  rewrite run in E. now injection E as <-.
Qed.

(** The block of a patch that was supplied holds that patch. *)
Lemma assemble_written i r c :
  0 <= i < n -> 0 <= r < P -> 0 <= c < P ->
  item res [i mod rows * P + r; i / rows * P + c]
  = cast (item pred_patches [i; r; c]).
Proof.
  intros Hi Hr Hc.
  destruct (assemble_run pred_patches n rows cols P shape_pred P_pos
              H0 W0 H0_nonneg W0_nonneg dims n_le) as (res' & E & _ & I).
  rewrite run in E. injection E as <-. rewrite I.
  destruct (grid_nonneg rows cols P P_pos H0 W0 H0_nonneg W0_nonneg dims)
    as [Hrows _].
  assert (0 < rows) by (apply (rows_pos_of_index rows cols i); lia).
  rewrite (fold_single _ (range n) i);
    [|apply range_NoDup|now apply range_In|].
  - now apply block_effect_self.
  - intros j w _ Hne. apply block_effect_other; auto.
Qed.

(** The block of a grid cell for which no patch was supplied is zero. *)
Lemma assemble_missing j r c :
  n <= j < rows * cols -> 0 <= n -> 0 <= r < P -> 0 <= c < P ->
  item res [j mod rows * P + r; j / rows * P + c] = zero.
Proof.
  intros Hj Hn Hr Hc.
  destruct (assemble_run pred_patches n rows cols P shape_pred P_pos
              H0 W0 H0_nonneg W0_nonneg dims n_le) as (res' & E & _ & I).
  rewrite run in E. injection E as <-. rewrite I.
  destruct (grid_nonneg rows cols P P_pos H0 W0 H0_nonneg W0_nonneg dims)
    as [Hrows _].
  assert (0 < rows) by (apply (rows_pos_of_index rows cols j); lia).
  apply fold_untouched. intros i Hi. apply range_In in Hi.
  apply block_effect_other; auto. lia.
Qed.
End AssembleBlocks.

(** C2: for an extent (H, W), a patch size P > 0 with grid
    [(rows, cols) = (ceil (H / P), ceil (W / P))], the padded extent
    [(H + P) * (W + P)] staying below 2^53 cells, and
    one (P, P) patch per grid cell, [assemble_patches] returns
    an array of 8-bit unsigned elements and shape (P * rows, P * cols) in
    which, for every linear index [i], the block at rows
    [(i mod rows) * P ..] and columns [(i div rows) * P ..] is patch [i],
    element by element, converted to the output element type. *)
Theorem assemble_patches_blocks {A : Type} {to_u8 : Cast A uint8}
  (pred_patches : ndarray A) (H W P rows cols : Z) :
  0 < P -> 0 <= H -> 0 <= W -> (H + P) * (W + P) < 2 ^ 53 ->
  is_ceil H P rows -> is_ceil W P cols ->
  shape pred_patches = [rows * cols; P; P] ->
  exists result : ndarray uint8,
    assemble_patches pred_patches [H; W] P = Ok result /\
    shape result = [P * rows; P * cols] /\
    forall i r c,
      0 <= i < rows * cols -> 0 <= r < P -> 0 <= c < P ->
      item result [i mod rows * P + r; i / rows * P + c]
      = cast (item pred_patches [i; r; c]).
Proof.
  intros HP HH HW _ Hrows Hcols Hs.
  pose proof (is_ceil_patch_dims H W P rows cols HP Hrows Hcols) as Hd.
  destruct (assemble_run pred_patches (rows * cols) rows cols P Hs HP
              H W HH HW Hd (Z.le_refl _)) as (res & E & S & _).
  exists res. split; [exact E|]. split; [exact S|].
  intros i r c Hi Hr Hc.
  now apply (assemble_written pred_patches (rows * cols) rows cols P H W).
Qed.

Lemma assemble_patches_blocks_witness :
  (0 < 4 /\ 0 <= 6 /\ (6 + 4) * (6 + 4) < 2 ^ 53 /\ is_ceil 6 4 2) /\
  exists result : ndarray uint8,
    assemble_patches (const_patches 4 4) [6; 6] 4 = Ok result /\
    shape result = [8; 8] /\
    u8_to_Z (item result [0; 4]) = 30 /\
    u8_to_Z (item result [7; 3]) = 20.
Proof.
  split; [unfold is_ceil; lia|].
  destruct (assemble_patches_blocks (const_patches 4 4) 6 6 4 2 2)
    as (result & E & S & I);
    [lia | lia | lia | lia | unfold is_ceil; lia | unfold is_ceil; lia
    | reflexivity |].
  exists result. split; [exact E|]. split; [exact S|]. split.
  - change [0; 4] with [2 mod 2 * 4 + 0; 2 / 2 * 4 + 0].
    rewrite (I 2 0 0); [reflexivity | lia | lia | lia].
  - change [7; 3] with [1 mod 2 * 4 + 3; 1 / 2 * 4 + 3].
    rewrite (I 1 3 3); [reflexivity | lia | lia | lia].
Defined.

(** C10: with fewer patches than grid cells (and a padded extent
    [(H + P) * (W + P)] below 2^53 cells), [assemble_patches] still
    returns, without raising: the blocks of the patches supplied hold
    them, and every block of a later grid cell is left entirely zero. *)
Theorem assemble_patches_short {A : Type} {to_u8 : Cast A uint8}
  (pred_patches : ndarray A) (H W P rows cols n : Z) :
  0 < P -> 0 <= H -> 0 <= W -> (H + P) * (W + P) < 2 ^ 53 ->
  patch_dims [H; W] P = Ok [rows; cols] ->
  shape pred_patches = [n; P; P] ->
  0 <= n < rows * cols ->
  exists result : ndarray uint8,
    assemble_patches pred_patches [H; W] P = Ok result /\
    shape result = [P * rows; P * cols] /\
    (forall i r c,
       0 <= i < n -> 0 <= r < P -> 0 <= c < P ->
       item result [i mod rows * P + r; i / rows * P + c]
       = cast (item pred_patches [i; r; c])) /\
    (forall j r c,
       n <= j < rows * cols -> 0 <= r < P -> 0 <= c < P ->
       item result [j mod rows * P + r; j / rows * P + c] = zero).
Proof.
  intros HP HH HW _ Hd Hs Hn.
  destruct (assemble_run pred_patches n rows cols P Hs HP
              H W HH HW Hd ltac:(lia)) as (res & E & S & _).
  exists res. split; [exact E|]. split; [exact S|]. split.
  - intros i r c Hi Hr Hc.
    apply (assemble_written pred_patches n rows cols P H W); auto; lia.
  - intros j r c Hj Hr Hc.
    apply (assemble_missing pred_patches n rows cols P H W); auto; lia.
Qed.

Lemma assemble_patches_short_witness :
  (0 < 4 /\ 0 <= 6 /\ (6 + 4) * (6 + 4) < 2 ^ 53 /\ 0 <= 3 < 2 * 2) /\
  exists result : ndarray uint8,
    assemble_patches (const_patches 3 4) [6; 6] 4 = Ok result /\
    shape result = [8; 8] /\
    u8_to_Z (item result [5; 1]) = 20 /\
    item result [5; 6] = zero.
Proof.
  split; [lia|].
  destruct (assemble_patches_short (const_patches 3 4) 6 6 4 2 2 3)
    as (result & E & S & I & Z);
    [lia | lia | lia | lia | reflexivity | reflexivity | lia |].
  exists result. split; [exact E|]. split; [exact S|]. split.
  - change [5; 1] with [1 mod 2 * 4 + 1; 1 / 2 * 4 + 1].
    rewrite (I 1 1 1); [reflexivity | lia | lia | lia].
  - apply (Z 3 1 2); lia.
Defined.

(** ** Too many patches *)

Lemma for_app {S : Type} (body : Z -> S -> outcome S) l1 l2 s :
  for_ (l1 ++ l2) body s = (s' <- for_ l1 body s ;; for_ l2 body s').
Proof.
  revert s. induction l1 as [|i l1 IH]; intros s; cbn [for_ app bind].
  - reflexivity.
  - destruct (body i s); cbn [bind]; auto.
Qed.

Lemma range_split m n :
  0 <= m < n -> exists l, range n = range m ++ m :: l.
Proof.
  intros Hm. unfold range.
  replace (Z.to_nat n) with (Z.to_nat m + S (Z.to_nat (n - m - 1)))%nat by lia.
  rewrite seq_app, map_app. cbn [seq map Nat.add].
  rewrite Z2Nat.id by lia. eauto.
Qed.

Lemma broadcast_mismatch a b t1 t2 :
  b <> t2 -> b <> 1 -> broadcast [a; b] [t1; t2] = None.
Proof.
  intros H1 H2. unfold broadcast.
  cbn [length Nat.sub strip_ones Nat.ltb Nat.leb skipn aligned].
  apply Z.eqb_neq in H1, H2. rewrite H1, H2. cbn [orb].
  destruct ((a =? t1) || (a =? 1)); reflexivity.
Qed.

Section Overrun.
Context {A : Type} `{Cast A uint8}.
Variable pred_patches : ndarray A.
Variables n rows cols P : Z.
Hypothesis shape_pred : shape pred_patches = [n; P; P].
Hypothesis P_big : 2 <= P.

(** The first patch beyond the grid selects an empty block, to which a
    (P, P) patch cannot be broadcast. *)
Lemma overrun_step (res : ndarray uint8) :
  0 < rows -> 0 <= cols -> rows * cols < n ->
  shape res = [P * rows; P * cols] ->
  (c <- block_col rows (rows * cols) ;;
   p <- getitem pred_patches [At (rows * cols)] ;;
   setitem res
     [Slice (Some (block_row rows (rows * cols) * P))
        (Some (block_row rows (rows * cols) * P + P));
      Slice (Some (c * P)) (Some (c * P + P))] p) = Raise ValueError.
Proof.
  intros Hr Hc Hn Hs.
  unfold block_col, block_row, true_divide, np_mod.
  replace (rows =? 0) with false by (symmetry; apply Z.eqb_neq; lia).
  cbn [math_floor bind].
  rewrite (Z.mul_comm rows cols), Z.mod_mul, Z.div_mul by lia.
  unfold getitem. rewrite shape_pred. cbn [resolve].
  replace ((cols * rows <? - n) || (n <=? cols * rows)) with false
    by (symmetry; apply orb_false_iff; split;
        [apply Z.ltb_ge|apply Z.leb_gt]; nia).
  cbn [bind map slice_bounds region_shape].
  unfold setitem. rewrite Hs. cbn [resolve map bind shape].
  rewrite (slice_bounds_in (0 * P) (0 * P + P) (P * rows)) by nia.
  rewrite (slice_bounds_cut (cols * P) (cols * P + P) (P * cols)) by nia.
  cbn [bind region_shape].
  rewrite broadcast_mismatch; [reflexivity | lia | lia].
Qed.

(** With an empty grid column the quotient [0 / 0] is a NaN, which
    [math.floor] rejects. *)
Lemma empty_grid_step (res : ndarray uint8) :
  (c <- block_col 0 0 ;;
   p <- getitem pred_patches [At 0] ;;
   setitem res
     [Slice (Some (block_row 0 0 * P)) (Some (block_row 0 0 * P + P));
      Slice (Some (c * P)) (Some (c * P + P))] p) = Raise ValueError.
Proof. reflexivity. Qed.

Variables H0 W0 : Z.
Hypothesis H0_nonneg : 0 <= H0.
Hypothesis W0_nonneg : 0 <= W0.
Hypothesis dims : patch_dims [H0; W0] P = Ok [rows; cols].

Lemma assemble_overrun :
  rows * cols < n ->
  assemble_patches pred_patches [H0; W0] P = Raise ValueError.
Proof.
  intros Hn.
  destruct (grid_nonneg rows cols P ltac:(lia) H0 W0 H0_nonneg W0_nonneg
              dims) as [Hr Hc].
  assert (0 <= rows * cols < n) as Hm by nia.
  destruct (range_split _ _ Hm) as (l & El).
  unfold assemble_patches. rewrite dims. cbn [bind].
  unfold np_zeros. cbn [existsb].
  replace (P * rows <? 0) with false by (symmetry; apply Z.ltb_ge; nia).
  replace (P * cols <? 0) with false by (symmetry; apply Z.ltb_ge; nia).
  cbn [orb bind]. rewrite shape_pred. cbn [bind].
  rewrite El, for_app.
  destruct (Z.eq_dec rows 0) as [->|Hr0].
  - rewrite Z.mul_0_l. reflexivity.
  - destruct (for_effect [P * rows; P * cols]
                (fun i result =>
                   c <- block_col rows i ;;
                   p <- getitem pred_patches [At i] ;;
                   setitem result
                     [Slice (Some (block_row rows i * P))
                        (Some (block_row rows i * P + P));
                      Slice (Some (c * P)) (Some (c * P + P))] p)
                (block_effect pred_patches rows P)
                (range (rows * cols)))
      with (s := mk_ndarray [P * rows; P * cols] (fun _ : list Z => zero))
      as (s' & E & S & _); [|reflexivity|].
    + intros i Hi s Hs. apply range_In in Hi.
      apply (assemble_step pred_patches n rows cols P shape_pred);
        auto; lia.
    + unfold uint8 in *. rewrite E. cbn [bind for_].
      rewrite overrun_step; auto; lia.
Qed.
End Overrun.

(** C5, as the code has it: [assemble_patches] does not compare the
    number of patches with the grid.  For a patch size of at least 2 and
    a padded extent [(H + P) * (W + P)] below 2^53 cells, a
    sequence longer than [rows * cols] makes the call fail with a
    [ValueError] (the first patch beyond the grid cannot be stored, or,
    with an empty grid, the quotient 0/0 cannot be floored), while a
    sequence that is not longer is accepted and the call returns. *)
Theorem assemble_patches_length {A : Type} {to_u8 : Cast A uint8}
  (pred_patches : ndarray A) (H W P rows cols n : Z) :
  2 <= P -> 0 <= H -> 0 <= W -> (H + P) * (W + P) < 2 ^ 53 ->
  patch_dims [H; W] P = Ok [rows; cols] ->
  shape pred_patches = [n; P; P] ->
  (rows * cols < n ->
   assemble_patches pred_patches [H; W] P = Raise ValueError) /\
  (n <= rows * cols ->
   exists result, assemble_patches pred_patches [H; W] P = Ok result).
Proof.
  intros HP HH HW _ Hd Hs. split; intros Hn.
  - now apply (assemble_overrun pred_patches n rows cols P Hs HP H W).
  - destruct (assemble_run pred_patches n rows cols P Hs ltac:(lia)
                H W HH HW Hd Hn) as (res & E & _).
    now exists res.
Qed.

Lemma assemble_patches_length_witness :
  (2 <= 4 /\ 0 <= 6 /\ (6 + 4) * (6 + 4) < 2 ^ 53) /\
  assemble_patches (const_patches 5 4) [6; 6] 4 = Raise ValueError /\
  exists result, assemble_patches (const_patches 3 4) [6; 6] 4 = Ok result.
Proof.
  split; [lia|]. split.
  - apply (proj1 (assemble_patches_length (const_patches 5 4) 6 6 4 2 2 5
                    ltac:(lia) ltac:(lia) ltac:(lia) ltac:(lia)
                    eq_refl eq_refl)).
    lia.
  - apply (proj2 (assemble_patches_length (const_patches 3 4) 6 6 4 2 2 3
                    ltac:(lia) ltac:(lia) ltac:(lia) ltac:(lia)
                    eq_refl eq_refl)).
    lia.
Defined.

(** C5 fails as stated: three patches for a grid of four cells are
    accepted, and the call returns an array. *)
Lemma assemble_patches_accepts_short_input :
  patch_dims [6; 6] 4 = Ok [2; 2] /\
  shape (const_patches 3 4) = [3; 4; 4] /\
  3 <> 2 * 2 /\
  exists result,
    assemble_patches (const_patches 3 4) [6; 6] 4 = Ok result /\
    shape result = [8; 8].
Proof.
  split; [reflexivity|]. split; [reflexivity|]. split; [lia|].
  eexists. split; reflexivity.
Qed.

(** ** Tiling *)

(** C1: for a source of shape (H, W, 4) with H, W > 0 and a patch size
    P > 0, the padded extent [(H + P) * (W + P)] staying below 2^53
    cells, [create_patches] returns [rows * cols] patches of shape
    (P, P, 4) and element type float32, with [rows = ceil (H / P)] and
    [cols = ceil (W / P)].  The patch at linear index [row + col * rows]
    holds the source region starting at [(row * P, col * P)] in its
    top-left corner and zero everywhere outside the source; a patch that
    lies inside the source is a full copy. *)
Theorem create_patches_tiles (mat : ndarray float32) (H W P : Z) :
  shape mat = [H; W; 4] -> 0 < H -> 0 < W -> 0 < P ->
  (H + P) * (W + P) < 2 ^ 53 ->
  exists rows cols (patches : ndarray float32),
    is_ceil H P rows /\ is_ceil W P cols /\
    create_patches mat P = Ok patches /\
    shape patches = [rows * cols; P; P; 4] /\
    (forall row col r c k,
       0 <= row < rows -> 0 <= col < cols ->
       0 <= r < P -> 0 <= c < P -> 0 <= k < 4 ->
       item patches [row + col * rows; r; c; k]
       = if (row * P + r <? H) && (col * P + c <? W)
         then item mat [row * P + r; col * P + c; k]
         else zero) /\
    (forall row col r c k,
       0 <= row < rows -> 0 <= col < cols ->
       row * P + P <= H -> col * P + P <= W ->
       0 <= r < P -> 0 <= c < P -> 0 <= k < 4 ->
       item patches [row + col * rows; r; c; k]
       = item mat [row * P + r; col * P + c; k]).
Proof.
  intros Hs HH HW HP _.
  pose proof (neg_div_is_ceil H P HP) as Hr.
  pose proof (neg_div_is_ceil W P HP) as Hc.
  set (rows := - ((- H) / P)) in *. set (cols := - ((- W) / P)) in *.
  destruct (create_run mat H W rows cols P Hs HP Hr Hc
              ltac:(lia) ltac:(lia)) as (patches & E & S & _).
  exists rows, cols, patches.
  assert (cell : forall row col r c k,
             0 <= row < rows -> 0 <= col < cols ->
             0 <= r < P -> 0 <= c < P -> 0 <= k < 4 ->
             item patches [row + col * rows; r; c; k]
             = if (row * P + r <? H) && (col * P + c <? W)
               then item mat [row * P + r; col * P + c; k]
               else zero).
  { intros row col r c k Hrow Hcol Hr' Hc' Hk.
    apply (create_cell mat H W rows cols P Hs HP Hr Hc
             ltac:(lia) ltac:(lia) patches row col r c k E); assumption. }
  repeat split; try assumption; try apply Hr; try apply Hc.
  intros row col r c k Hrow Hcol Hin1 Hin2 Hr' Hc' Hk.
  rewrite cell by assumption.
  replace (row * P + r <? H) with true by (symmetry; apply Z.ltb_lt; lia).
  replace (col * P + c <? W) with true by (symmetry; apply Z.ltb_lt; lia).
  reflexivity.
Qed.

Lemma create_patches_tiles_witness :
  (0 < 6 /\ 0 < 4 /\ (6 + 4) * (6 + 4) < 2 ^ 53) /\
  exists patches : ndarray float32,
    create_patches sample_mat 4 = Ok patches /\
    shape patches = [4; 4; 4; 4] /\
    item patches [3; 1; 1; 2] = item sample_mat [5; 5; 2] /\
    item patches [3; 2; 1; 2] = zero /\
    item patches [0; 3; 3; 1] = item sample_mat [3; 3; 1].
Proof.
  split; [lia|].
  destruct (create_patches_tiles sample_mat 6 6 4)
    as (rows & cols & patches & Hr & Hc & E & S & I & _);
    [reflexivity | lia | lia | lia | lia |].
  assert (rows = 2) as -> by (unfold is_ceil in Hr; lia).
  assert (cols = 2) as -> by (unfold is_ceil in Hc; lia).
  exists patches. split; [exact E|]. split; [exact S|].
  split; [|split].
  - change [3; 1; 1; 2] with [1 + 1 * 2; 1; 1; 2].
    rewrite I by lia. reflexivity.
  - change [3; 2; 1; 2] with [1 + 1 * 2; 2; 1; 2].
    rewrite I by lia. reflexivity.
  - change [0; 3; 3; 1] with [0 + 0 * 2; 3; 3; 1].
    rewrite I by lia. reflexivity.
Defined.

(** The padding scenario of a (10, 10, 4) source with patch size 4: in
    the bottom-right patch only rows and columns 0 and 1 come from the
    source. *)
Example padding_10_10_4 (mat : ndarray float32) :
  shape mat = [10; 10; 4] ->
  exists patches,
    create_patches mat 4 = Ok patches /\
    shape patches = [9; 4; 4; 4] /\
    forall r c k,
      0 <= r < 4 -> 0 <= c < 4 -> 0 <= k < 4 ->
      item patches [8; r; c; k]
      = if (r <? 2) && (c <? 2) then item mat [8 + r; 8 + c; k] else zero.
Proof.
  intros Hs.
  assert (Hr : is_ceil 10 4 3) by (unfold is_ceil; lia).
  destruct (create_run mat 10 10 3 3 4 Hs ltac:(lia) Hr Hr
              ltac:(lia) ltac:(lia)) as (patches & E & S & _).
  exists patches. split; [exact E|]. split; [exact S|].
  intros r c k Hr' Hc' Hk.
  change [8; r; c; k] with [patch_id 3 2 2; r; c; k].
  rewrite (create_cell mat 10 10 3 3 4 Hs ltac:(lia) Hr Hr
             ltac:(lia) ltac:(lia) patches 2 2 r c k E) by lia.
  change (2 * 4) with 8.
  replace (8 + r <? 10) with (r <? 2)
    by (destruct (Z.ltb_spec r 2), (Z.ltb_spec (8 + r) 10); lia).
  replace (8 + c <? 10) with (c <? 2)
    by (destruct (Z.ltb_spec c 2), (Z.ltb_spec (8 + c) 10); lia).
  reflexivity.
Qed.

(** ** The shape check of [create_patches] *)

Lemma resolve_no_assert ix :
  forall shp, resolve ix shp <> Raise AssertionError.
Proof.
  induction ix as [|[i|lo hi] ix IH]; intros [|n shp]; cbn [resolve];
    try discriminate.
  - destruct ((i <? - n) || (n <=? i)); [discriminate|].
    specialize (IH shp). destruct (resolve ix shp); cbn [bind];
      [discriminate | congruence | discriminate].
  - specialize (IH shp). destruct (resolve ix shp); cbn [bind];
      [|congruence|discriminate].
    destruct (slice_bounds lo hi n). discriminate.
Qed.

Lemma getitem_no_assert {A : Type} (arr : ndarray A) ix :
  getitem arr ix <> Raise AssertionError.
Proof.
  unfold getitem. pose proof (resolve_no_assert ix (shape arr)) as R.
  destruct (resolve ix (shape arr)); cbn [bind];
    [discriminate | congruence | discriminate].
Qed.

Lemma setitem_no_assert {A B : Type} `{Cast A B}
  (arr : ndarray B) ix (value : ndarray A) :
  setitem arr ix value <> Raise AssertionError.
Proof.
  unfold setitem. pose proof (resolve_no_assert ix (shape arr)) as R.
  destruct (resolve ix (shape arr)); cbn [bind];
    [|congruence|discriminate].
  destruct (broadcast _ _); discriminate.
Qed.

Lemma for_no_assert {S : Type} (body : Z -> S -> outcome S) l :
  (forall i s, body i s <> Raise AssertionError) ->
  forall s, for_ l body s <> Raise AssertionError.
Proof.
  intros Hb. induction l as [|i l IH]; intros s; cbn [for_];
    [discriminate|].
  specialize (Hb i s). destruct (body i s); cbn [bind];
    [apply IH | congruence | discriminate].
Qed.

Lemma create_patches_checked_no_assert {A : Type} `{Cast A float32}
  (mat : ndarray A) P h w :
  shape mat = [h; w; 4] -> create_patches mat P <> Raise AssertionError.
Proof.
  intros Hs. unfold create_patches. rewrite Hs.
  cbn [length Nat.eqb assert bind last firstn].
  change (4 =? 4) with true. cbn [assert bind].
  pose proof (patch_dims_no_raise [h; w] P AssertionError) as D.
  destruct (patch_dims [h; w] P) as [dims| |]; cbn [bind];
    [|congruence|discriminate].
  unfold np_zeros. destruct (existsb _ _); cbn [bind]; [discriminate|].
  apply for_no_assert. intros y s. apply for_no_assert. intros x s'.
  pose proof (getitem_no_assert mat
                [Slice (Some (y * P)) (Some (y * P + P));
                 Slice (Some (x * P)) (Some (x * P + P)); Slice None None])
    as G.
  destruct (getitem mat _); cbn [bind]; [|congruence|discriminate].
  apply setitem_no_assert.
Qed.

(** C7: [create_patches] fails its shape assertion exactly when the input
    is not a 3-dimensional array whose last dimension is 4, whatever the
    patch size and the contents; the check precedes every other step, so
    a failing input reaches none of them.  In particular an (H, W, 3)
    input is rejected. *)
Theorem create_patches_shape_check {A : Type} {to_f32 : Cast A float32}
  (mat : ndarray A) (P : Z) :
  (create_patches mat P = Raise AssertionError <->
   ~ (exists h w, shape mat = [h; w; 4])) /\
  (forall h w, shape mat = [h; w; 3] ->
               create_patches mat P = Raise AssertionError).
Proof.
  split; [split|].
  - intros E (h & w & Hs).
    now apply (create_patches_checked_no_assert mat P h w Hs).
  - intros Hn. unfold create_patches.
    destruct (shape mat) as [|a [|b [|c [|d l]]]] eqn:Hs;
      cbn [length Nat.eqb assert bind]; try reflexivity.
    cbn [last]. destruct (Z.eqb_spec c 4) as [->|Hc];
      cbn [assert bind]; [|reflexivity].
    exfalso. apply Hn. now exists a, b.
  - intros h w Hs. unfold create_patches. rewrite Hs. reflexivity.
Qed.

Lemma create_patches_shape_check_witness :
  create_patches rgb_mat 4 = Raise AssertionError /\
  create_patches sample_mat 4 <> Raise AssertionError.
Proof.
  split.
  - apply (proj2 (create_patches_shape_check rgb_mat 4) 6 6). reflexivity.
  - intros E.
    apply (proj1 (proj1 (create_patches_shape_check sample_mat 4)) E).
    exists 6, 6. reflexivity.
Defined.

(** ** Agreement of the two index conventions *)

(** C4: for every valid linear index [i], the grid cell whose source
    region [create_patches] stores in patch [i] (through
    [patch_id = row + col * rows]) is the grid cell
    [(i mod rows, i div rows)] whose block [assemble_patches] fills with
    [pred_patches[i]], when both are given the same extent and patch
    size (the padded extent [(H + P) * (W + P)] staying below 2^53
    cells). *)
Theorem index_mapping_agrees {A B : Type}
  {to_f32 : Cast A float32} {to_u8 : Cast B uint8}
  (mat : ndarray A) (pred_patches : ndarray B) (H W P rows cols : Z) :
  0 < P -> 0 <= H -> 0 <= W -> (H + P) * (W + P) < 2 ^ 53 ->
  shape mat = [H; W; 4] ->
  patch_dims [H; W] P = Ok [rows; cols] ->
  shape pred_patches = [rows * cols; P; P] ->
  exists patches result,
    create_patches mat P = Ok patches /\
    assemble_patches pred_patches [H; W] P = Ok result /\
    forall i, 0 <= i < rows * cols ->
      let row := i mod rows in
      let col := i / rows in
      0 <= row < rows /\ 0 <= col < cols /\
      patch_id rows row col = i /\
      (forall y x, 0 <= y < rows -> 0 <= x < cols ->
                   patch_id rows y x = i -> y = row /\ x = col) /\
      block_row rows i = row /\ block_col rows i = Ok col /\
      (forall r c k,
         0 <= r < P -> 0 <= c < P -> 0 <= k < 4 ->
         item patches [i; r; c; k]
         = if (row * P + r <? H) && (col * P + c <? W)
           then cast (item mat [row * P + r; col * P + c; k])
           else zero) /\
      (forall r c,
         0 <= r < P -> 0 <= c < P ->
         item result [row * P + r; col * P + c]
         = cast (item pred_patches [i; r; c])).
Proof.
  intros HP HH HW _ Hm Hd Hs.
  destruct (patch_dims_is_ceil _ _ _ _ _ HP Hd) as [Hr Hc].
  destruct (create_run mat H W rows cols P Hm HP Hr Hc HH HW)
    as (patches & E & _).
  destruct (assemble_run pred_patches (rows * cols) rows cols P Hs HP
              H W HH HW Hd (Z.le_refl _)) as (res & E' & _).
  exists patches, res. split; [exact E|]. split; [exact E'|].
  intros i Hi row col.
  pose proof (is_ceil_nonneg _ _ _ HP HH Hr) as Hrows.
  assert (0 < rows) as Hpos by (apply (rows_pos_of_index rows cols i); lia).
  destruct (cell_of_index rows cols i Hi Hpos) as (Hy & Hx & Hid).
  fold row in Hy, Hid. fold col in Hx, Hid.
  repeat split; try lia.
  - destruct (patch_id_inj rows y x row col ltac:(lia) ltac:(lia)
                ltac:(congruence)); assumption.
  - destruct (patch_id_inj rows y x row col ltac:(lia) ltac:(lia)
                ltac:(congruence)); assumption.
  - unfold block_row, np_mod.
    replace (rows =? 0) with false by (symmetry; apply Z.eqb_neq; lia).
    reflexivity.
  - unfold block_col, true_divide.
    replace (rows =? 0) with false by (symmetry; apply Z.eqb_neq; lia).
    reflexivity.
  - intros r c k Hr' Hc' Hk. rewrite <- Hid at 1.
    apply (create_cell mat H W rows cols P Hm HP Hr Hc HH HW
             patches row col r c k E); lia.
  - intros r c Hr' Hc'.
    apply (assemble_written pred_patches (rows * cols) rows cols P H W
             HP HH HW Hd Hs (Z.le_refl _) res E'); lia.
Qed.

Lemma index_mapping_agrees_witness :
  (0 < 4 /\ 0 <= 6 /\ (6 + 4) * (6 + 4) < 2 ^ 53) /\
  exists patches result,
    create_patches sample_mat 4 = Ok patches /\
    assemble_patches (const_patches 4 4) [6; 6] 4 = Ok result /\
    patch_id 2 0 1 = 2 /\ block_row 2 2 = 0 /\ block_col 2 2 = Ok 1.
Proof.
  split; [lia|].
  destruct (index_mapping_agrees sample_mat (const_patches 4 4) 6 6 4 2 2)
    as (patches & result & E & E' & I);
    [lia | lia | lia | lia | reflexivity | reflexivity | reflexivity |].
  exists patches, result. split; [exact E|]. split; [exact E'|].
  destruct (I 2 ltac:(lia)) as (_ & _ & Hid & _ & Hr & Hc & _).
  auto.
Defined.

(** ** Round trip *)

Lemma u8_to_of z : u8_to_Z (u8_of_Z z) = z mod 256.
Proof.
  unfold u8_to_Z, u8_of_Z.
  pose proof (Z.mod_pos_bound z 256 ltac:(lia)) as B.
  destruct (Byte.of_N (Z.to_N (z mod 256))) as [b|] eqn:E.
  - apply Byte.to_of_N in E. rewrite E. lia.
  - apply Byte.of_N_None_iff in E. lia.
Qed.

Lemma f32_is_int_trunc v n : f32_is_int v n = true -> f32_trunc v = n.
Proof.
  destruct v as [s| | |s m e]; cbn [f32_is_int f32_trunc];
    try discriminate.
  - intros E. apply Z.eqb_eq in E. lia.
  - destruct (0 <=? e).
    + intros E. apply Z.eqb_eq in E. destruct s; lia.
    + intros E. apply andb_true_iff in E. destruct E as [_ E].
      apply Z.eqb_eq in E. destruct s; lia.
Qed.

Lemma f32_to_u8_exact v n :
  0 <= n < 256 -> f32_is_int v n = true -> u8_to_Z (f32_to_u8 v) = n.
Proof.
  intros Hn E. unfold f32_to_u8. rewrite u8_to_of.
  rewrite (f32_is_int_trunc v n E). now apply Z.mod_small.
Qed.

Lemma slice_bounds_all n : 0 <= n -> slice_bounds None None n = (0, n).
Proof. intros Hn. unfold slice_bounds. f_equal. lia. Qed.

(** [patches[:, :, :, ch]] *)
Lemma channel_planes {A : Type} (patches : ndarray A) cnt P ch :
  shape patches = [cnt; P; P; 4] -> 0 <= cnt -> 0 <= P -> 0 <= ch < 4 ->
  exists planes,
    getitem patches
      [Slice None None; Slice None None; Slice None None; At ch]
    = Ok planes /\
    shape planes = [cnt; P; P] /\
    forall i r c, item planes [i; r; c] = item patches [i; r; c; ch].
Proof.
  intros Hs Hcnt HP Hch. unfold getitem. rewrite Hs. cbn [resolve].
  replace ((ch <? - (4)) || (4 <=? ch)) with false
    by (symmetry; apply orb_false_iff; split;
        [apply Z.ltb_ge|apply Z.leb_gt]; lia).
  replace (ch <? 0) with false by (symmetry; apply Z.ltb_ge; lia).
  cbn [map bind]. rewrite !slice_bounds_all by lia. cbn [bind].
  eexists. split; [reflexivity|]. split; [reflexivity|].
  intros i r c. cbn [item abs_index]. now rewrite !Z.add_0_l.
Qed.

(** C3, as the code has it: for a source whose height and width are
    exact multiples of the patch size (the padded extent
    [(H + P) * (W + P)] staying below 2^53 cells), tiling, keeping one
    channel of every patch and reassembling with the same extent and
    patch size yields an array of the source's extent holding, cell by
    cell, the source value converted to the 8-bit output element type.
    Where the source value is a whole number in 0..255 the value itself
    comes back. *)
Theorem roundtrip_converts (mat : ndarray float32) (H W P ch : Z) :
  0 < P -> 0 <= H -> 0 <= W -> (H + P) * (W + P) < 2 ^ 53 ->
  H mod P = 0 -> W mod P = 0 ->
  shape mat = [H; W; 4] -> 0 <= ch < 4 ->
  exists result : ndarray uint8,
    roundtrip mat P ch = Ok result /\
    shape result = [H; W] /\
    (forall r c,
       0 <= r < H -> 0 <= c < W ->
       item result [r; c] = f32_to_u8 (item mat [r; c; ch])) /\
    (forall r c n,
       0 <= r < H -> 0 <= c < W -> 0 <= n < 256 ->
       f32_is_int (item mat [r; c; ch]) n = true ->
       u8_to_Z (item result [r; c]) = n).
Proof.
  intros HP HH HW _ HmH HmW Hs Hch.
  set (rows := H / P). set (cols := W / P).
  assert (EH : H = rows * P)
    by (unfold rows; pose proof (Z.div_mod H P ltac:(lia)); lia).
  assert (EW : W = cols * P)
    by (unfold cols; pose proof (Z.div_mod W P ltac:(lia)); lia).
  assert (Hr : is_ceil H P rows) by (unfold is_ceil; lia).
  assert (Hc : is_ceil W P cols) by (unfold is_ceil; lia).
  pose proof (is_ceil_nonneg _ _ _ HP HH Hr) as Hrows.
  pose proof (is_ceil_nonneg _ _ _ HP HW Hc) as Hcols.
  pose proof (is_ceil_patch_dims H W P rows cols HP Hr Hc) as Hd.
  destruct (create_run mat H W rows cols P Hs HP Hr Hc HH HW)
    as (patches & E & Sp & _).
  destruct (channel_planes patches (rows * cols) P ch Sp ltac:(nia)
              ltac:(lia) Hch) as (planes & Eg & Spl & Ipl).
  destruct (assemble_run planes (rows * cols) rows cols P Spl HP
              H W HH HW Hd (Z.le_refl _)) as (res & Ea & Sr & _).
  assert (cell : forall r c,
             0 <= r < H -> 0 <= c < W ->
             item res [r; c] = f32_to_u8 (item mat [r; c; ch])).
  { intros r c Hr' Hc'.
    set (y := r / P). set (x := c / P).
    pose proof (Z.div_mod r P ltac:(lia)) as Dr.
    pose proof (Z.div_mod c P ltac:(lia)) as Dc.
    pose proof (Z.mod_pos_bound r P HP) as Br.
    pose proof (Z.mod_pos_bound c P HP) as Bc.
    fold y in Dr. fold x in Dc.
    assert (0 <= y < rows) as Hy by nia.
    assert (0 <= x < cols) as Hx by nia.
    pose proof (patch_id_range rows cols y x Hy Hx) as Hid.
    replace r with (patch_id rows y x mod rows * P + r mod P) at 1
      by (rewrite patch_id_mod by lia; lia).
    replace c with (patch_id rows y x / rows * P + c mod P) at 1
      by (rewrite patch_id_div by lia; lia).
    rewrite (assemble_written planes (rows * cols) rows cols P H W
               HP HH HW Hd Spl (Z.le_refl _) res Ea) by lia.
    rewrite Ipl.
    rewrite (create_cell mat H W rows cols P Hs HP Hr Hc HH HW
               patches y x (r mod P) (c mod P) ch E) by lia.
    replace (y * P + r mod P) with r by lia.
    replace (x * P + c mod P) with c by lia.
    replace (r <? H) with true by (symmetry; apply Z.ltb_lt; lia).
    replace (c <? W) with true by (symmetry; apply Z.ltb_lt; lia).
    reflexivity. }
  exists res. split; [|split; [|split]].
  - unfold roundtrip. rewrite E. cbn [bind]. rewrite Eg. cbn [bind].
    rewrite Hs. exact Ea.
  - rewrite Sr. now rewrite EH, EW, !(Z.mul_comm P).
  - exact cell.
  - intros r c n Hr' Hc' Hn Hv. rewrite cell by assumption.
    now apply f32_to_u8_exact.
Qed.

Lemma roundtrip_converts_witness :
  (0 < 2 /\ (4 + 2) * (4 + 2) < 2 ^ 53 /\ 4 mod 2 = 0 /\ 0 <= 1 < 4) /\
  exists result : ndarray uint8,
    roundtrip small_mat 2 1 = Ok result /\
    shape result = [4; 4] /\
    u8_to_Z (item result [3; 2]) = 32.
Proof.
  split; [split; [lia | split; [lia | split; [reflexivity | lia]]]|].
  destruct (roundtrip_converts small_mat 4 4 2 1)
    as (result & E & S & _ & I);
    [lia | lia | lia | lia | reflexivity | reflexivity | reflexivity
    | lia |].
  exists result. split; [exact E|]. split; [exact S|].
  apply (I 3 2 32); [lia | lia | lia | reflexivity].
Defined.

(** C3 fails as stated: a source filled with 0.5 comes back as zeros,
    because the assembled array has 8-bit unsigned elements. *)
Lemma roundtrip_loses_fraction :
  shape half_mat = [2; 2; 4] /\ 2 mod 2 = 0 /\
  exists result : ndarray uint8,
    roundtrip half_mat 2 0 = Ok result /\
    u8_to_Z (item result [0; 0]) = 0 /\
    f32_is_int (item half_mat [0; 0; 0]) 0 = false /\
    ~ reproduces half_mat 0 result.
Proof.
  split; [reflexivity|]. split; [reflexivity|].
  eexists. split; [reflexivity|]. split; [reflexivity|].
  split; [reflexivity|].
  intros R. specialize (R 0 0). cbn [shape half_mat nth] in R.
  specialize (R ltac:(lia) ltac:(lia)). vm_compute in R. discriminate.
Qed.

(** * Further properties *)

(** ** [safe_crop] *)

Lemma slice_bounds_window y len n :
  0 <= y -> 0 <= len -> 0 <= n ->
  slice_bounds (Some y) (Some (y + len)) n
  = (Z.min y n, Z.min (y + len) n - Z.min y n).
Proof.
  intros Hy Hl Hn. unfold slice_bounds, clip.
  destruct (Z.ltb_spec y 0), (Z.ltb_spec (y + len) 0); try lia.
  f_equal. lia.
Qed.

Lemma slice_bounds_range lo len n :
  0 <= len -> 0 <= n ->
  0 <= fst (slice_bounds (Some lo) (Some (lo + len)) n) /\
  0 <= snd (slice_bounds (Some lo) (Some (lo + len)) n) <= len /\
  fst (slice_bounds (Some lo) (Some (lo + len)) n)
  + snd (slice_bounds (Some lo) (Some (lo + len)) n) <= n.
Proof.
  intros Hl Hn. unfold slice_bounds, clip. cbn [fst snd].
  destruct (Z.ltb_spec lo 0), (Z.ltb_spec (lo + len) 0); lia.
Qed.

(** A window that starts before the array and ends inside it selects
    nothing: the negative start counts from the far end. *)
Lemma slice_bounds_straddle lo len n :
  lo < 0 <= lo + len -> len <= n ->
  snd (slice_bounds (Some lo) (Some (lo + len)) n) = 0.
Proof.
  intros Hlo Hn. unfold slice_bounds, clip. cbn [snd].
  destruct (Z.ltb_spec lo 0), (Z.ltb_spec (lo + len) 0); lia.
Qed.

Lemma broadcast_channels a b c t :
  (c =? t) || (c =? 1) = true ->
  broadcast [a; b; c] [a; b; t] =
  Some (fun rel =>
          match rel with
          | k :: rel' =>
              (if a =? 1 then 0 else k) ::
              match rel' with
              | k' :: rel'' =>
                  (if b =? 1 then 0 else k') ::
                  match rel'' with
                  | k'' :: _ => [if c =? 1 then 0 else k'']
                  | [] => []
                  end
              | [] => []
              end
          | [] => []
          end).
Proof.
  intros Hc. unfold broadcast.
  cbn [length Nat.sub strip_ones Nat.ltb Nat.leb skipn aligned repeat app].
  rewrite !Z.eqb_refl, Hc. reflexivity.
Qed.

Lemma broadcast_channel_mismatch a b c t1 t2 t :
  c <> t -> c <> 1 -> broadcast [a; b; c] [t1; t2; t] = None.
Proof.
  intros H1 H2. unfold broadcast.
  cbn [length Nat.sub strip_ones Nat.ltb Nat.leb skipn aligned].
  apply Z.eqb_neq in H1, H2. rewrite H1, H2. cbn [orb].
  destruct ((a =? t1) || (a =? 1)); [|reflexivity].
  destruct ((b =? t2) || (b =? 1)); reflexivity.
Qed.

Section Crop.
Context {A : Type} `{Cast A float32}.
Variables img_rows img_cols : Z.
Variable cv_resize : ndarray float32 -> Z * Z -> outcome (ndarray float32).
Variable mat : ndarray A.
Variables H0 W0 : Z.
Hypothesis H0_nonneg : 0 <= H0.
Hypothesis W0_nonneg : 0 <= W0.
Hypothesis rows_nonneg : 0 <= img_rows.
Hypothesis cols_nonneg : 0 <= img_cols.

Lemma safe_crop_2d_run x y sy h sx w :
  shape mat = [H0; W0] ->
  slice_bounds (Some y) (Some (y + img_rows)) H0 = (sy, h) ->
  slice_bounds (Some x) (Some (x + img_cols)) W0 = (sx, w) ->
  exists ret,
    safe_crop img_rows img_cols cv_resize mat x y (img_rows, img_cols)
    = Ok ret /\
    shape ret = [img_rows; img_cols] /\
    forall idx,
      item ret idx =
      match idx with
      | [r; c] =>
          if (0 <=? r) && (r <? h) && ((0 <=? c) && (c <? w))
          then cast (item mat [sy + r; sx + c])
          else zero
      | _ => zero
      end.
Proof.
  intros shape_mat Ey Ex.
  pose proof (slice_bounds_range y img_rows H0 rows_nonneg H0_nonneg) as By.
  pose proof (slice_bounds_range x img_cols W0 cols_nonneg W0_nonneg) as Bx.
  rewrite Ey in By. rewrite Ex in Bx. cbn [fst snd] in By, Bx.
  unfold safe_crop. rewrite shape_mat. cbn [length Nat.eqb].
  unfold np_zeros. cbn [existsb].
  replace (img_rows <? 0) with false by (symmetry; apply Z.ltb_ge; lia).
  replace (img_cols <? 0) with false by (symmetry; apply Z.ltb_ge; lia).
  cbn [orb bind].
  unfold getitem. rewrite shape_mat. cbn [resolve map bind].
  rewrite Ey, Ex. cbn [bind region_shape shape firstn].
  unfold setitem. cbn [shape resolve map bind].
  rewrite (slice_bounds_in 0 h img_rows) by lia.
  rewrite (slice_bounds_in 0 w img_cols) by lia.
  cbn [bind region_shape]. rewrite !Z.sub_0_r.
  rewrite broadcast_same2. rewrite !Z.eqb_refl. cbn [andb negb bind].
  eexists. split; [reflexivity|]. split; [reflexivity|].
  intros idx. cbn [item].
  destruct idx as [|r [|c [|? ?]]]; cbn [rel_index]; try reflexivity.
  - destruct ((0 <=? r) && (r <? 0 + h)); reflexivity.
  - rewrite !Z.add_0_l.
    destruct (Z.leb_spec 0 r), (Z.ltb_spec r h);
      cbn [andb option_map]; try reflexivity.
    destruct (Z.leb_spec 0 c), (Z.ltb_spec c w);
      cbn [andb option_map abs_index]; try reflexivity.
    rewrite !Z.sub_0_r. do 3 f_equal.
    + destruct (Z.eqb_spec h 1); lia.
    + f_equal. destruct (Z.eqb_spec w 1); lia.
  - rewrite !Z.add_0_l.
    destruct ((0 <=? r) && (r <? h)); cbn [option_map]; try reflexivity.
    destruct ((0 <=? c) && (c <? w)); reflexivity.
Qed.

Lemma safe_crop_3d_run C x y sy h sx w :
  shape mat = [H0; W0; C] ->
  (C =? 3) || (C =? 1) = true ->
  slice_bounds (Some y) (Some (y + img_rows)) H0 = (sy, h) ->
  slice_bounds (Some x) (Some (x + img_cols)) W0 = (sx, w) ->
  exists ret,
    safe_crop img_rows img_cols cv_resize mat x y (img_rows, img_cols)
    = Ok ret /\
    shape ret = [img_rows; img_cols; 3] /\
    forall idx,
      item ret idx =
      match idx with
      | [r; c; k] =>
          if (0 <=? r) && (r <? h) && ((0 <=? c) && (c <? w))
             && ((0 <=? k) && (k <? 3))
          then cast (item mat [sy + r; sx + c; if C =? 1 then 0 else k])
          else zero
      | _ => zero
      end.
Proof.
  intros shape_mat HC Ey Ex.
  pose proof (slice_bounds_range y img_rows H0 rows_nonneg H0_nonneg) as By.
  pose proof (slice_bounds_range x img_cols W0 cols_nonneg W0_nonneg) as Bx.
  rewrite Ey in By. rewrite Ex in Bx. cbn [fst snd] in By, Bx.
  unfold safe_crop. rewrite shape_mat. cbn [length Nat.eqb].
  unfold np_zeros. cbn [existsb].
  replace (img_rows <? 0) with false by (symmetry; apply Z.ltb_ge; lia).
  replace (img_cols <? 0) with false by (symmetry; apply Z.ltb_ge; lia).
  change (3 <? 0) with false. cbn [orb bind].
  unfold getitem. rewrite shape_mat. cbn [resolve map bind].
  rewrite Ey, Ex. cbn [bind region_shape shape firstn].
  unfold setitem. cbn [shape resolve map bind].
  rewrite (slice_bounds_in 0 h img_rows) by lia.
  rewrite (slice_bounds_in 0 w img_cols) by lia.
  cbn [bind region_shape]. rewrite !Z.sub_0_r.
  rewrite (broadcast_channels h w C 3 HC).
  rewrite !Z.eqb_refl. cbn [andb negb bind].
  eexists. split; [reflexivity|]. split; [reflexivity|].
  intros idx. cbn [item].
  destruct idx as [|r [|c [|k [|? ?]]]]; cbn [rel_index]; try reflexivity.
  all: rewrite !Z.add_0_l.
  all: destruct (Z.leb_spec 0 r), (Z.ltb_spec r h);
    cbn [andb option_map]; try reflexivity.
  all: destruct (Z.leb_spec 0 c), (Z.ltb_spec c w);
    cbn [andb option_map]; try reflexivity.
  all: destruct (Z.leb_spec 0 k), (Z.ltb_spec k 3);
    cbn [andb option_map abs_index]; try reflexivity.
  rewrite !Z.sub_0_r, !Z.add_0_l. do 3 f_equal.
  - destruct (Z.eqb_spec h 1); lia.
  - f_equal. destruct (Z.eqb_spec w 1); lia.
Qed.
End Crop.

(** X1: on a 2D array, with offsets that are not negative and the default
    crop size, [safe_crop] returns an array of exactly the crop size that
    holds the window of the source starting at row [y], column [x], and
    zero wherever the window reaches past the bottom or right edge (all
    of it, when the offset lies outside the array).  [cv.resize] is not
    consulted. *)
Theorem safe_crop_2d_window {A : Type} {to_f32 : Cast A float32}
  (img_rows img_cols : Z)
  (cv_resize : ndarray float32 -> Z * Z -> outcome (ndarray float32))
  (mat : ndarray A) (H W x y : Z) :
  shape mat = [H; W] -> 0 <= H -> 0 <= W ->
  0 <= img_rows -> 0 <= img_cols -> 0 <= x -> 0 <= y ->
  exists ret,
    safe_crop img_rows img_cols cv_resize mat x y (img_rows, img_cols)
    = Ok ret /\
    shape ret = [img_rows; img_cols] /\
    forall r c,
      0 <= r < img_rows -> 0 <= c < img_cols ->
      item ret [r; c]
      = if (y + r <? H) && (x + c <? W)
        then cast (item mat [y + r; x + c])
        else zero.
Proof.
  intros Hs HH HW Hr Hc Hx Hy.
  destruct (safe_crop_2d_run img_rows img_cols cv_resize mat H W HH HW Hr Hc
              x y _ _ _ _ Hs
              (slice_bounds_window y img_rows H Hy Hr HH)
              (slice_bounds_window x img_cols W Hx Hc HW))
    as (ret & E & S & I).
  exists ret. split; [exact E|]. split; [exact S|].
  intros r c Hr' Hc'. rewrite I.
  destruct (Z.ltb_spec (y + r) H), (Z.ltb_spec (x + c) W); cbn [andb].
  - replace (_ && _) with true.
    + do 3 f_equal; [lia | f_equal; lia].
    + symmetry. rewrite !andb_true_iff.
      repeat split; first [apply Z.leb_le | apply Z.ltb_lt]; lia.
  - replace (c <? _) with false by (symmetry; apply Z.ltb_ge; lia).
    now rewrite !andb_false_r.
  - replace (r <? _) with false by (symmetry; apply Z.ltb_ge; lia).
    now rewrite andb_false_r.
  - replace (r <? _) with false by (symmetry; apply Z.ltb_ge; lia).
    now rewrite andb_false_r.
Qed.

Lemma safe_crop_2d_window_witness :
  (0 <= 3 /\ 0 <= 5) /\
  exists ret,
    safe_crop 3 4 no_resize gray_mat 5 3 (3, 4) = Ok ret /\
    shape ret = [3; 4] /\
    item ret [1; 1] = item gray_mat [4; 6] /\
    item ret [1; 2] = zero /\
    item ret [2; 0] = zero.
Proof.
  split; [lia|].
  destruct (safe_crop_2d_window 3 4 no_resize gray_mat 5 7 5 3)
    as (ret & E & S & I);
    [reflexivity | lia | lia | lia | lia | lia | lia |].
  exists ret. split; [exact E|]. split; [exact S|].
  rewrite !I by lia. repeat split.
Defined.

(** X2: on a three-channel array the same holds channel by channel: the
    result has shape (crop height, crop width, 3), holds the window of
    the source and is zero past the bottom and right edges. *)
Theorem safe_crop_rgb_window {A : Type} {to_f32 : Cast A float32}
  (img_rows img_cols : Z)
  (cv_resize : ndarray float32 -> Z * Z -> outcome (ndarray float32))
  (mat : ndarray A) (H W x y : Z) :
  shape mat = [H; W; 3] -> 0 <= H -> 0 <= W ->
  0 <= img_rows -> 0 <= img_cols -> 0 <= x -> 0 <= y ->
  exists ret,
    safe_crop img_rows img_cols cv_resize mat x y (img_rows, img_cols)
    = Ok ret /\
    shape ret = [img_rows; img_cols; 3] /\
    forall r c k,
      0 <= r < img_rows -> 0 <= c < img_cols -> 0 <= k < 3 ->
      item ret [r; c; k]
      = if (y + r <? H) && (x + c <? W)
        then cast (item mat [y + r; x + c; k])
        else zero.
Proof.
  intros Hs HH HW Hr Hc Hx Hy.
  destruct (safe_crop_3d_run img_rows img_cols cv_resize mat H W HH HW Hr Hc
              3 x y _ _ _ _ Hs eq_refl
              (slice_bounds_window y img_rows H Hy Hr HH)
              (slice_bounds_window x img_cols W Hx Hc HW))
    as (ret & E & S & I).
  exists ret. split; [exact E|]. split; [exact S|].
  intros r c k Hr' Hc' Hk. rewrite I. change (3 =? 1) with false. cbv iota.
  replace ((0 <=? k) && (k <? 3)) with true
    by (symmetry; apply andb_true_iff; split;
        [apply Z.leb_le | apply Z.ltb_lt]; lia).
  rewrite andb_true_r.
  destruct (Z.ltb_spec (y + r) H), (Z.ltb_spec (x + c) W); cbn [andb].
  - replace (_ && _) with true.
    + do 3 f_equal; [lia | f_equal; lia].
    + symmetry. rewrite !andb_true_iff.
      repeat split; first [apply Z.leb_le | apply Z.ltb_lt]; lia.
  - replace (c <? _) with false by (symmetry; apply Z.ltb_ge; lia).
    now rewrite !andb_false_r.
  - replace (r <? _) with false by (symmetry; apply Z.ltb_ge; lia).
    now rewrite andb_false_r.
  - replace (r <? _) with false by (symmetry; apply Z.ltb_ge; lia).
    now rewrite andb_false_r.
Qed.

Lemma safe_crop_rgb_window_witness :
  (0 <= 3 /\ 0 <= 4) /\
  exists ret,
    safe_crop 3 4 no_resize rgb_mat 4 4 (3, 4) = Ok ret /\
    shape ret = [3; 4; 3] /\
    item ret [1; 1; 2] = item rgb_mat [5; 5; 2] /\
    item ret [2; 1; 2] = zero.
Proof.
  split; [lia|].
  destruct (safe_crop_rgb_window 3 4 no_resize rgb_mat 6 6 4 4)
    as (ret & E & S & I);
    [reflexivity | lia | lia | lia | lia | lia | lia |].
  exists ret. split; [exact E|]. split; [exact S|].
  rewrite !I by lia. repeat split.
Defined.

(** X3: a single-channel 3D array (H, W, 1) is accepted too, and its one
    channel is copied into each of the three channels of the result. *)
Theorem safe_crop_mono_replicates {A : Type} {to_f32 : Cast A float32}
  (img_rows img_cols : Z)
  (cv_resize : ndarray float32 -> Z * Z -> outcome (ndarray float32))
  (mat : ndarray A) (H W x y : Z) :
  shape mat = [H; W; 1] -> 0 <= H -> 0 <= W ->
  0 <= img_rows -> 0 <= img_cols -> 0 <= x -> 0 <= y ->
  exists ret,
    safe_crop img_rows img_cols cv_resize mat x y (img_rows, img_cols)
    = Ok ret /\
    shape ret = [img_rows; img_cols; 3] /\
    forall r c k,
      0 <= r < img_rows -> 0 <= c < img_cols -> 0 <= k < 3 ->
      item ret [r; c; k]
      = if (y + r <? H) && (x + c <? W)
        then cast (item mat [y + r; x + c; 0])
        else zero.
Proof.
  intros Hs HH HW Hr Hc Hx Hy.
  destruct (safe_crop_3d_run img_rows img_cols cv_resize mat H W HH HW Hr Hc
              1 x y _ _ _ _ Hs eq_refl
              (slice_bounds_window y img_rows H Hy Hr HH)
              (slice_bounds_window x img_cols W Hx Hc HW))
    as (ret & E & S & I).
  exists ret. split; [exact E|]. split; [exact S|].
  intros r c k Hr' Hc' Hk. rewrite I. change (1 =? 1) with true. cbv iota.
  replace ((0 <=? k) && (k <? 3)) with true
    by (symmetry; apply andb_true_iff; split;
        [apply Z.leb_le | apply Z.ltb_lt]; lia).
  rewrite andb_true_r.
  destruct (Z.ltb_spec (y + r) H), (Z.ltb_spec (x + c) W); cbn [andb].
  - replace (_ && _) with true.
    + do 3 f_equal; [lia | f_equal; lia].
    + symmetry. rewrite !andb_true_iff.
      repeat split; first [apply Z.leb_le | apply Z.ltb_lt]; lia.
  - replace (c <? _) with false by (symmetry; apply Z.ltb_ge; lia).
    now rewrite !andb_false_r.
  - replace (r <? _) with false by (symmetry; apply Z.ltb_ge; lia).
    now rewrite andb_false_r.
  - replace (r <? _) with false by (symmetry; apply Z.ltb_ge; lia).
    now rewrite andb_false_r.
Qed.

Lemma safe_crop_mono_replicates_witness :
  (0 <= 3 /\ 0 <= 5) /\
  exists ret,
    safe_crop 3 4 no_resize mono_mat 5 3 (3, 4) = Ok ret /\
    shape ret = [3; 4; 3] /\
    item ret [1; 1; 0] = item mono_mat [4; 6; 0] /\
    item ret [1; 1; 2] = item mono_mat [4; 6; 0].
Proof.
  split; [lia|].
  destruct (safe_crop_mono_replicates 3 4 no_resize mono_mat 5 7 5 3)
    as (ret & E & S & I);
    [reflexivity | lia | lia | lia | lia | lia | lia |].
  exists ret. split; [exact E|]. split; [exact S|].
  rewrite !I by lia. repeat split.
Defined.

(** X4: a 3D array whose channel count is neither 3 nor 1 cannot be
    cropped: whatever the offsets and the crop size, [safe_crop] raises
    [ValueError].  This includes the four-channel arrays that
    [create_patches] requires. *)
Theorem safe_crop_rejects_channels {A : Type} {to_f32 : Cast A float32}
  (img_rows img_cols : Z)
  (cv_resize : ndarray float32 -> Z * Z -> outcome (ndarray float32))
  (mat : ndarray A) (H W C x y : Z) (crop_size : Z * Z) :
  shape mat = [H; W; C] -> C <> 3 -> C <> 1 ->
  safe_crop img_rows img_cols cv_resize mat x y crop_size = Raise ValueError.
Proof.
  intros Hs H3 H1. unfold safe_crop. destruct crop_size as [ch cw].
  rewrite Hs. cbn [length Nat.eqb].
  unfold np_zeros. destruct (existsb _ _); [reflexivity|]. cbn [bind].
  unfold getitem. rewrite Hs. cbn [resolve map bind].
  destruct (slice_bounds (Some x) (Some (x + cw)) W) as [sx w].
  cbn [bind].
  destruct (slice_bounds (Some y) (Some (y + ch)) H) as [sy h].
  cbn [bind region_shape shape firstn].
  unfold setitem. cbn [shape resolve map bind].
  destruct (slice_bounds (Some 0) (Some w) cw) as [s2 l2]. cbn [bind].
  destruct (slice_bounds (Some 0) (Some h) ch) as [s1 l1].
  cbn [bind region_shape].
  now rewrite broadcast_channel_mismatch.
Qed.

Lemma safe_crop_rejects_channels_witness :
  (4 <> 3 /\ 4 <> 1) /\
  safe_crop 3 4 no_resize sample_mat 0 0 (3, 4) = Raise ValueError.
Proof.
  split; [lia|].
  apply (safe_crop_rejects_channels 3 4 no_resize sample_mat 6 6 4 0 0 (3, 4));
    [reflexivity | lia | lia].
Defined.

(** X5: a negative offset is not clamped to the edge.  When the window
    starts before the first row (or column) and ends inside the array,
    nothing is copied and the result is entirely zero. *)
Theorem safe_crop_negative_offset {A : Type} {to_f32 : Cast A float32}
  (img_rows img_cols : Z)
  (cv_resize : ndarray float32 -> Z * Z -> outcome (ndarray float32))
  (mat : ndarray A) (H W x y : Z) :
  shape mat = [H; W] -> 0 <= H -> 0 <= W ->
  0 <= img_rows -> 0 <= img_cols ->
  (y < 0 <= y + img_rows /\ img_rows <= H) \/
  (x < 0 <= x + img_cols /\ img_cols <= W) ->
  exists ret,
    safe_crop img_rows img_cols cv_resize mat x y (img_rows, img_cols)
    = Ok ret /\
    shape ret = [img_rows; img_cols] /\
    forall idx, item ret idx = zero.
Proof.
  intros Hs HH HW Hr Hc Hneg.
  destruct (slice_bounds (Some y) (Some (y + img_rows)) H) as [sy h] eqn:Ey.
  destruct (slice_bounds (Some x) (Some (x + img_cols)) W) as [sx w] eqn:Ex.
  destruct (safe_crop_2d_run img_rows img_cols cv_resize mat H W HH HW Hr Hc
              x y sy h sx w Hs Ey Ex) as (ret & E & S & I).
  exists ret. split; [exact E|]. split; [exact S|].
  intros idx. rewrite I.
  destruct idx as [|r [|c [|? ?]]]; try reflexivity.
  destruct Hneg as [[Hy Hle]|[Hx Hle]].
  - pose proof (slice_bounds_straddle y img_rows H Hy Hle) as Z0.
    rewrite Ey in Z0. cbn [snd] in Z0. subst h.
    destruct (Z.leb_spec 0 r), (Z.ltb_spec r 0); cbn [andb];
      try reflexivity; lia.
  - pose proof (slice_bounds_straddle x img_cols W Hx Hle) as Z0.
    rewrite Ex in Z0. cbn [snd] in Z0. subst w.
    destruct (Z.leb_spec 0 c), (Z.ltb_spec c 0); cbn [andb];
      rewrite ?andb_false_r; try reflexivity; lia.
Qed.

Lemma safe_crop_negative_offset_witness :
  (-1 < 0 <= -1 + 4 /\ 4 <= 7) /\
  exists ret,
    safe_crop 3 4 no_resize gray_mat (-1) 0 (3, 4) = Ok ret /\
    item ret [0; 1] = zero.
Proof.
  split; [lia|].
  destruct (safe_crop_negative_offset 3 4 no_resize gray_mat 5 7 (-1) 0)
    as (ret & E & _ & I);
    [reflexivity | lia | lia | lia | lia | right; lia |].
  exists ret. split; [exact E | apply I].
Defined.

(** X6: an array with fewer than two dimensions cannot be cropped: with a
    crop size that is not negative and whose float32 buffer of three
    channels stays below 2^63 bytes, [safe_crop] raises [IndexError]. *)
Theorem safe_crop_needs_two_axes {A : Type} {to_f32 : Cast A float32}
  (img_rows img_cols : Z)
  (cv_resize : ndarray float32 -> Z * Z -> outcome (ndarray float32))
  (mat : ndarray A) (x y crop_height crop_width : Z) :
  (length (shape mat) < 2)%nat -> 0 <= crop_height -> 0 <= crop_width ->
  12 * Z.max 1 crop_height * Z.max 1 crop_width < 2 ^ 63 ->
  safe_crop img_rows img_cols cv_resize mat x y (crop_height, crop_width)
  = Raise IndexError.
Proof.
  intros Hl Hh Hw _. unfold safe_crop.
  assert (Ez : np_zeros (B := float32) [crop_height; crop_width; 3]
              = Ok (mk_ndarray [crop_height; crop_width; 3]
                      (fun _ => zero))).
  { unfold np_zeros. cbn [existsb].
    replace (crop_height <? 0) with false by (symmetry; apply Z.ltb_ge; lia).
    replace (crop_width <? 0) with false by (symmetry; apply Z.ltb_ge; lia).
    reflexivity. }
  unfold getitem.
  destruct (shape mat) as [|n [|m l]]; cbn [length] in Hl; [| |lia];
    cbn [length Nat.eqb]; rewrite Ez; reflexivity.
Qed.

Lemma safe_crop_needs_two_axes_witness :
  ((length (shape line_mat) < 2)%nat /\
   12 * Z.max 1 3 * Z.max 1 4 < 2 ^ 63) /\
  safe_crop 3 4 no_resize line_mat 0 0 (3, 4) = Raise IndexError.
Proof.
  split; [split; [cbn; lia | lia]|].
  apply (safe_crop_needs_two_axes 3 4 no_resize line_mat 0 0 3 4);
    [cbn; lia | lia | lia | lia].
Defined.

(** ** More on tiling *)

(** X7: tiling loses nothing.  For a source of any element type (the
    padded extent [(H + P) * (W + P)] staying below 2^53 cells), every
    source cell [(r, c, k)] is found, converted to float32, in the patch
    of grid cell [(r div P, c div P)] at position [(r mod P, c mod P, k)]. *)
Theorem create_patches_lossless {A : Type} {to_f32 : Cast A float32}
  (mat : ndarray A) (H W P : Z) :
  shape mat = [H; W; 4] -> 0 <= H -> 0 <= W -> 0 < P ->
  (H + P) * (W + P) < 2 ^ 53 ->
  exists patches rows cols,
    create_patches mat P = Ok patches /\
    patch_dims [H; W] P = Ok [rows; cols] /\
    forall r c k,
      0 <= r < H -> 0 <= c < W -> 0 <= k < 4 ->
      item patches [patch_id rows (r / P) (c / P); r mod P; c mod P; k]
      = cast (item mat [r; c; k]).
Proof.
  intros Hs HH HW HP _.
  pose proof (neg_div_is_ceil H P HP) as Hr.
  pose proof (neg_div_is_ceil W P HP) as Hc.
  set (rows := - ((- H) / P)) in *. set (cols := - ((- W) / P)) in *.
  destruct (create_run mat H W rows cols P Hs HP Hr Hc HH HW)
    as (patches & E & _).
  exists patches, rows, cols. split; [exact E|].
  split; [now apply is_ceil_patch_dims|].
  intros r c k Hr' Hc' Hk.
  pose proof (Z.div_mod r P ltac:(lia)) as Dr.
  pose proof (Z.div_mod c P ltac:(lia)) as Dc.
  pose proof (Z.mod_pos_bound r P HP) as Br.
  pose proof (Z.mod_pos_bound c P HP) as Bc.
  unfold is_ceil in Hr, Hc.
  assert (0 <= r / P < rows) as Hy by nia.
  assert (0 <= c / P < cols) as Hx by nia.
  rewrite (create_cell mat H W rows cols P Hs HP Hr Hc HH HW
             patches (r / P) (c / P) (r mod P) (c mod P) k E) by lia.
  replace (r / P * P + r mod P) with r by lia.
  replace (c / P * P + c mod P) with c by lia.
  replace (r <? H) with true by (symmetry; apply Z.ltb_lt; lia).
  replace (c <? W) with true by (symmetry; apply Z.ltb_lt; lia).
  reflexivity.
Qed.

Lemma create_patches_lossless_witness :
  (0 <= 6 /\ 0 < 4 /\ (6 + 4) * (6 + 4) < 2 ^ 53) /\
  exists patches,
    create_patches sample_mat 4 = Ok patches /\
    item patches [3; 1; 0; 2] = item sample_mat [5; 4; 2].
Proof.
  split; [lia|].
  destruct (create_patches_lossless sample_mat 6 6 4)
    as (patches & rows & cols & E & D & I);
    [reflexivity | lia | lia | lia | lia |].
  assert (D' : patch_dims [6; 6] 4 = Ok [2; 2]) by reflexivity.
  rewrite D' in D. injection D as <- <-.
  exists patches. split; [exact E|].
  apply (I 5 4 2); lia.
Defined.

(** X8: a source with no rows or no columns yields no patch at all: as
    long as [(H + P) * (W + P)] stays below 2^53, the call returns an
    empty sequence of shape (0, P, P, 4). *)
Theorem create_patches_empty_source {A : Type} {to_f32 : Cast A float32}
  (mat : ndarray A) (H W P : Z) :
  shape mat = [H; W; 4] -> 0 <= H -> 0 <= W -> 0 < P ->
  (H + P) * (W + P) < 2 ^ 53 ->
  H = 0 \/ W = 0 ->
  exists patches,
    create_patches mat P = Ok patches /\ shape patches = [0; P; P; 4].
Proof.
  intros Hs HH HW HP _ Hz.
  pose proof (neg_div_is_ceil H P HP) as Hr.
  pose proof (neg_div_is_ceil W P HP) as Hc.
  set (rows := - ((- H) / P)) in *. set (cols := - ((- W) / P)) in *.
  destruct (create_run mat H W rows cols P Hs HP Hr Hc HH HW)
    as (patches & E & S & _).
  exists patches. split; [exact E|]. rewrite S.
  clearbody rows cols. unfold is_ceil in Hr, Hc.
  destruct Hz as [Hz|Hz]; subst.
  - assert (rows = 0) as -> by nia. reflexivity.
  - assert (cols = 0) as -> by nia. now rewrite Z.mul_0_r.
Qed.

Lemma create_patches_empty_source_witness :
  (0 <= 0 /\ 0 < 4 /\ (0 + 4) * (6 + 4) < 2 ^ 53) /\
  exists patches,
    create_patches (mk_ndarray [0; 6; 4] (item sample_mat)) 4 = Ok patches /\
    shape patches = [0; 4; 4; 4].
Proof.
  split; [lia|].
  apply (create_patches_empty_source
           (mk_ndarray [0; 6; 4] (item sample_mat)) 0 6 4);
    [reflexivity | lia | lia | lia | lia | left; reflexivity].
Defined.

(** X9: a negative patch size is rejected, though not by a check of the
    argument: allocating the patch buffer raises [ValueError]. *)
Theorem create_patches_negative_size {A : Type} {to_f32 : Cast A float32}
  (mat : ndarray A) (H W P : Z) :
  shape mat = [H; W; 4] -> P < 0 ->
  create_patches mat P = Raise ValueError.
Proof.
  intros Hs HP. unfold create_patches. rewrite Hs.
  cbn [length Nat.eqb assert bind last firstn].
  change (4 =? 4) with true. cbn [assert bind].
  rewrite patch_dims_nonzero by lia. cbn [bind fold_right nth].
  unfold np_zeros. cbn [existsb].
  replace (P <? 0) with true by (symmetry; apply Z.ltb_lt; lia).
  cbn [orb]. rewrite orb_true_r. reflexivity.
Qed.

Lemma create_patches_negative_size_witness :
  -4 < 0 /\ create_patches sample_mat (-4) = Raise ValueError.
Proof.
  split; [lia|].
  apply (create_patches_negative_size sample_mat 6 6 (-4));
    [reflexivity | lia].
Defined.

(** ** More on reassembly *)

Lemma patch_dims_map mat_size P :
  P <> 0 ->
  patch_dims mat_size P = Ok (map (fun n => - ((- n) / P)) mat_size).
Proof.
  intros HP. unfold patch_dims. apply Z.eqb_neq in HP.
  induction mat_size as [|n l IH]; cbn [mapM map]; [reflexivity|].
  rewrite IH. unfold true_divide. rewrite HP.
  cbn [np_ceil astype_int bind]. now rewrite Z.quot_1_r.
Qed.

(** X10: the extent handed to [assemble_patches] must have exactly two
    entries.  Any other length, for instance the full shape (H, W, 3) of
    an image, makes the call fail with [ValueError] before anything is
    allocated (entries and patch size below 2^53 in absolute value). *)
Theorem assemble_patches_extent_arity {A : Type} {to_u8 : Cast A uint8}
  (pred_patches : ndarray A) (mat_size : list Z) (P : Z) :
  P <> 0 -> - 2 ^ 53 < P < 2 ^ 53 ->
  Forall (fun h => - 2 ^ 53 < h < 2 ^ 53) mat_size ->
  length mat_size <> 2%nat ->
  assemble_patches pred_patches mat_size P = Raise ValueError.
Proof.
  intros HP _ _ Hl. unfold assemble_patches.
  rewrite patch_dims_map by assumption. cbn [bind].
  destruct mat_size as [|a [|b [|c l]]]; cbn [map]; try reflexivity.
  now contradiction Hl.
Qed.

Lemma assemble_patches_extent_arity_witness :
  (4 <> 0 /\ - 2 ^ 53 < 4 < 2 ^ 53 /\ length [6; 6; 3] <> 2%nat) /\
  assemble_patches (const_patches 4 4) [6; 6; 3] 4 = Raise ValueError.
Proof.
  split; [split; [lia | split; [lia | cbn; lia]]|].
  apply (assemble_patches_extent_arity (const_patches 4 4) [6; 6; 3] 4);
    [lia | lia | repeat constructor; lia | cbn; lia].
Defined.

Lemma range_head n : 1 <= n -> exists l, range n = 0 :: l.
Proof.
  intros Hn. destruct (range_split 0 n ltac:(lia)) as (l & E).
  exists l. exact E.
Qed.

Lemma broadcast_rank3_into2 a b c t1 t2 :
  a <> 1 -> broadcast [a; b; c] [t1; t2] = None.
Proof.
  intros Ha. unfold broadcast. cbn [length Nat.sub strip_ones].
  apply Z.eqb_neq in Ha. rewrite Ha. reflexivity.
Qed.

Lemma broadcast_reject a b t1 t2 :
  (a <> t1 /\ a <> 1) \/ (b <> t2 /\ b <> 1) ->
  broadcast [a; b] [t1; t2] = None.
Proof.
  intros Hne. unfold broadcast.
  cbn [length Nat.sub strip_ones Nat.ltb Nat.leb skipn aligned].
  destruct Hne as [[H1 H2]|[H1 H2]]; apply Z.eqb_neq in H1, H2;
    rewrite H1, H2; cbn [orb]; [reflexivity|].
  destruct ((a =? t1) || (a =? 1)); reflexivity.
Qed.

(** X11: patches that carry a trailing channel axis, shape (n, P, P, 1)
    with P >= 2, are not accepted: for a padded extent
    [(H + P) * (W + P)] below 2^53 cells the first write raises
    [ValueError]. *)
Theorem assemble_patches_channel_axis {A : Type} {to_u8 : Cast A uint8}
  (pred_patches : ndarray A) (H W P n : Z) :
  shape pred_patches = [n; P; P; 1] -> 2 <= P -> 1 <= n ->
  0 <= H -> 0 <= W -> (H + P) * (W + P) < 2 ^ 53 ->
  assemble_patches pred_patches [H; W] P = Raise ValueError.
Proof.
  intros Hs HP Hn HH HW _.
  assert (HP' : 0 < P) by lia.
  pose proof (neg_div_is_ceil H P HP') as Hr.
  pose proof (neg_div_is_ceil W P HP') as Hc.
  set (rows := - ((- H) / P)) in *. set (cols := - ((- W) / P)) in *.
  pose proof (is_ceil_nonneg H P rows HP' HH Hr) as Hrows.
  pose proof (is_ceil_nonneg W P cols HP' HW Hc) as Hcols.
  unfold assemble_patches.
  rewrite (is_ceil_patch_dims H W P rows cols HP' Hr Hc).
  cbn [bind]. unfold np_zeros. cbn [existsb].
  replace (P * rows <? 0) with false by (symmetry; apply Z.ltb_ge; nia).
  replace (P * cols <? 0) with false by (symmetry; apply Z.ltb_ge; nia).
  cbn [orb bind]. rewrite Hs. cbn [bind].
  destruct (range_head n Hn) as (l & ->). cbn [for_].
  destruct (Z.eq_dec rows 0) as [->|Hr0]; [reflexivity|].
  unfold block_col, block_row, true_divide, np_mod.
  replace (rows =? 0) with false by (symmetry; apply Z.eqb_neq; lia).
  cbn [math_floor bind].
  unfold getitem. rewrite Hs. cbn [resolve].
  replace ((0 <? - n) || (n <=? 0)) with false
    by (symmetry; apply orb_false_iff; split;
        [apply Z.ltb_ge|apply Z.leb_gt]; lia).
  cbn [map bind region_shape].
  unfold setitem. cbn [shape resolve map bind].
  destruct (slice_bounds _ _ (P * cols)) as [sx w]. cbn [bind].
  destruct (slice_bounds _ _ (P * rows)) as [sy h].
  cbn [bind region_shape].
  rewrite broadcast_rank3_into2 by lia. reflexivity.
Qed.

Lemma assemble_patches_channel_axis_witness :
  (2 <= 4 /\ 1 <= 4 /\ (6 + 4) * (6 + 4) < 2 ^ 53) /\
  assemble_patches (channel_patches 4 4) [6; 6] 4 = Raise ValueError.
Proof.
  split; [lia|].
  apply (assemble_patches_channel_axis (channel_patches 4 4) 6 6 4 4);
    [reflexivity | lia | lia | lia | lia | lia].
Defined.

(** X12: patches whose shape is neither (P, P) nor broadcastable to it
    (an axis of length 1) are rejected: for an extent that is not empty
    (and a padded extent [(H + P) * (W + P)] below 2^53 cells), the
    first write raises [ValueError]. *)
Theorem assemble_patches_rejects_shape {A : Type} {to_u8 : Cast A uint8}
  (pred_patches : ndarray A) (H W P n a b : Z) :
  shape pred_patches = [n; a; b] -> 0 < P -> 1 <= n ->
  0 < H -> 0 < W -> (H + P) * (W + P) < 2 ^ 53 ->
  (a <> P /\ a <> 1) \/ (b <> P /\ b <> 1) ->
  assemble_patches pred_patches [H; W] P = Raise ValueError.
Proof.
  intros Hs HP Hn HH HW _ Hne.
  pose proof (neg_div_is_ceil H P HP) as Hr.
  pose proof (neg_div_is_ceil W P HP) as Hc.
  set (rows := - ((- H) / P)) in *. set (cols := - ((- W) / P)) in *.
  pose proof (is_ceil_pos _ _ _ HP HH Hr) as Hrows.
  pose proof (is_ceil_pos _ _ _ HP HW Hc) as Hcols.
  unfold assemble_patches.
  rewrite (is_ceil_patch_dims H W P rows cols HP Hr Hc).
  cbn [bind]. unfold np_zeros. cbn [existsb].
  replace (P * rows <? 0) with false by (symmetry; apply Z.ltb_ge; nia).
  replace (P * cols <? 0) with false by (symmetry; apply Z.ltb_ge; nia).
  cbn [orb bind]. rewrite Hs. cbn [bind].
  destruct (range_head n Hn) as (l & ->). cbn [for_].
  unfold block_col, block_row, true_divide, np_mod.
  replace (rows =? 0) with false by (symmetry; apply Z.eqb_neq; lia).
  cbn [math_floor bind]. rewrite Z.mod_0_l, Z.div_0_l by lia.
  unfold getitem. rewrite Hs. cbn [resolve].
  replace ((0 <? - n) || (n <=? 0)) with false
    by (symmetry; apply orb_false_iff; split;
        [apply Z.ltb_ge|apply Z.leb_gt]; lia).
  cbn [map bind region_shape].
  unfold setitem. cbn [shape resolve map bind].
  rewrite (slice_bounds_in (0 * P) (0 * P + P) (P * rows)) by nia.
  rewrite (slice_bounds_in (0 * P) (0 * P + P) (P * cols)) by nia.
  cbn [bind region_shape].
  replace (0 * P + P - 0 * P) with P by lia.
  now rewrite broadcast_reject.
Qed.

Lemma assemble_patches_rejects_shape_witness :
  (0 < 4 /\ 1 <= 4 /\ (6 + 4) * (6 + 4) < 2 ^ 53 /\ 3 <> 4 /\ 3 <> 1) /\
  assemble_patches (const_patches 4 3) [6; 6] 4 = Raise ValueError.
Proof.
  split; [lia|].
  apply (assemble_patches_rejects_shape (const_patches 4 3) 6 6 4 4 3 3);
    [reflexivity | lia | lia | lia | lia | lia | left; lia].
Defined.

Lemma slice_bounds_beyond lo hi n :
  0 <= n <= lo -> lo <= hi -> slice_bounds (Some lo) (Some hi) n = (n, 0).
Proof.
  intros Hn Hh. unfold slice_bounds, clip.
  destruct (Z.ltb_spec lo 0), (Z.ltb_spec hi 0); try lia.
  f_equal; lia.
Qed.

Section UnitPatches.
Context {A : Type} `{Cast A uint8}.
Variable pred_patches : ndarray A.
Variables n rows cols : Z.
Hypothesis shape_pred : shape pred_patches = [n; 1; 1].
Hypothesis rows_pos : 0 < rows.
Hypothesis cols_nonneg : 0 <= cols.

(** With patch size 1 a patch beyond the grid selects an empty block, to
    which a (1, 1) patch broadcasts: the write stores nothing. *)
Lemma unit_surplus_step i (res : ndarray uint8) :
  0 <= i < n -> rows * cols <= i ->
  shape res = [1 * rows; 1 * cols] ->
  exists res',
    (c <- block_col rows i ;;
     p <- getitem pred_patches [At i] ;;
     setitem res
       [Slice (Some (block_row rows i * 1)) (Some (block_row rows i * 1 + 1));
        Slice (Some (c * 1)) (Some (c * 1 + 1))] p) = Ok res' /\
    shape res' = [1 * rows; 1 * cols] /\
    forall idx, item res' idx = item res idx.
Proof.
  intros Hi Hge Hs.
  pose proof (Z.mod_pos_bound i rows rows_pos) as Hy.
  assert (cols <= i / rows) as Hx
    by (apply Z.div_le_lower_bound; lia).
  unfold block_col, block_row, true_divide, np_mod.
  replace (rows =? 0) with false by (symmetry; apply Z.eqb_neq; lia).
  cbn [math_floor bind].
  unfold getitem. rewrite shape_pred. cbn [resolve].
  replace ((i <? - n) || (n <=? i)) with false
    by (symmetry; apply orb_false_iff; split;
        [apply Z.ltb_ge|apply Z.leb_gt]; lia).
  cbn [bind map slice_bounds region_shape].
  unfold setitem. rewrite Hs. cbn [resolve map bind shape].
  rewrite (slice_bounds_in (i mod rows * 1) (i mod rows * 1 + 1) (1 * rows))
    by lia.
  rewrite (slice_bounds_beyond (i / rows * 1) (i / rows * 1 + 1) (1 * cols))
    by lia.
  cbn [bind region_shape].
  replace (i mod rows * 1 + 1 - i mod rows * 1) with 1 by lia.
  assert (exists f, broadcast [1; 1] [1; 0] = Some f) as (f & ->)
    by (eexists; reflexivity).
  eexists. split; [reflexivity|]. split; [reflexivity|].
  intros idx. cbn [item].
  destruct idx as [|R [|C [|? ?]]]; cbn [rel_index]; try reflexivity.
  - destruct (_ && _); reflexivity.
  - destruct (_ && _); cbn [option_map]; [|reflexivity].
    destruct (Z.leb_spec (1 * cols) C), (Z.ltb_spec C (1 * cols + 0));
      cbn [andb]; try reflexivity; lia.
  - destruct (_ && _); cbn [option_map]; [|reflexivity].
    destruct (_ && _); reflexivity.
Qed.

Lemma unit_run :
  exists res,
    for_ (range n)
      (fun i result =>
         c <- block_col rows i ;;
         p <- getitem pred_patches [At i] ;;
         setitem result
           [Slice (Some (block_row rows i * 1))
              (Some (block_row rows i * 1 + 1));
            Slice (Some (c * 1)) (Some (c * 1 + 1))] p)
      (mk_ndarray [1 * rows; 1 * cols] (fun _ => zero)) = Ok res /\
    shape res = [1 * rows; 1 * cols] /\
    forall idx,
      item res idx =
      fold_left
        (fun v i =>
           if i <? rows * cols
           then block_effect pred_patches rows 1 i idx v
           else v)
        (range n) zero.
Proof.
  apply (for_effect [1 * rows; 1 * cols] _
           (fun i idx v =>
              if i <? rows * cols
              then block_effect pred_patches rows 1 i idx v
              else v)); [|reflexivity].
  intros i Hi s Hs. apply range_In in Hi.
  destruct (Z.ltb_spec i (rows * cols)).
  - apply (assemble_step pred_patches n rows cols 1 shape_pred); auto; lia.
  - apply unit_surplus_step; auto.
Qed.
End UnitPatches.

(** X13: with patch size 1, patches in excess of the grid do no harm:
    for fewer than 2^53 patches and a padded extent
    [(H + 1) * (W + 1)] below 2^53 cells, the call returns an array of
    the extent's shape in which every cell holds the patch of its linear
    index, and the surplus is ignored. *)
Theorem assemble_patches_unit_surplus {A : Type} {to_u8 : Cast A uint8}
  (pred_patches : ndarray A) (H W n : Z) :
  shape pred_patches = [n; 1; 1] -> 0 < H -> 0 <= W ->
  (H + 1) * (W + 1) < 2 ^ 53 -> H * W <= n < 2 ^ 53 ->
  exists result : ndarray uint8,
    assemble_patches pred_patches [H; W] 1 = Ok result /\
    shape result = [H; W] /\
    forall i,
      0 <= i < H * W ->
      item result [i mod H; i / H] = cast (item pred_patches [i; 0; 0]).
Proof.
  intros Hs HH HW _ [Hn _].
  assert (Hd : patch_dims [H; W] 1 = Ok [H; W])
    by (apply is_ceil_patch_dims; unfold is_ceil; lia).
  destruct (unit_run pred_patches n H W Hs HH HW) as (res & E & S & I).
  exists res. split; [|split].
  - unfold assemble_patches. rewrite Hd. cbn [bind].
    unfold np_zeros. cbn [existsb].
    replace (1 * H <? 0) with false by (symmetry; apply Z.ltb_ge; lia).
    replace (1 * W <? 0) with false by (symmetry; apply Z.ltb_ge; lia).
    cbn [orb bind]. rewrite Hs. cbn [bind]. exact E.
  - rewrite S. now rewrite !Z.mul_1_l.
  - intros i Hi. rewrite I.
    rewrite (fold_single _ (range n) i);
      [|apply range_NoDup|apply range_In; lia|].
    + replace (i <? H * W) with true by (symmetry; apply Z.ltb_lt; lia).
      replace [i mod H; i / H] with [i mod H * 1 + 0; i / H * 1 + 0]
        by (f_equal; [lia | f_equal; lia]).
      apply block_effect_self; lia.
    + intros j w _ Hne. destruct (j <? H * W); [|reflexivity].
      replace [i mod H; i / H] with [i mod H * 1 + 0; i / H * 1 + 0]
        by (f_equal; [lia | f_equal; lia]).
      apply block_effect_other; auto; lia.
Qed.

Lemma assemble_patches_unit_surplus_witness :
  (0 < 2 /\ (2 + 1) * (2 + 1) < 2 ^ 53 /\ 2 * 2 <= 6 < 2 ^ 53) /\
  exists result : ndarray uint8,
    assemble_patches (const_patches 6 1) [2; 2] 1 = Ok result /\
    shape result = [2; 2] /\
    u8_to_Z (item result [1; 1]) = 40.
Proof.
  split; [lia|].
  destruct (assemble_patches_unit_surplus (const_patches 6 1) 2 2 6)
    as (result & E & S & I); [reflexivity | lia | lia | lia | lia |].
  exists result. split; [exact E|]. split; [exact S|].
  change [1; 1] with [3 mod 2; 3 / 2].
  rewrite (I 3) by lia. reflexivity.
Defined.

(** X14: the assembler may be given the padded extent instead of the
    original one.  As long as [(H + P) * (W + P)] stays below 2^53, the
    grid computed from the extent (P * rows, P * cols) is again
    (rows, cols), so [assemble_patches] returns the same result for
    both. *)
Theorem assemble_patches_padded_extent {A : Type} {to_u8 : Cast A uint8}
  (pred_patches : ndarray A) (H W P rows cols : Z) :
  0 < P -> 0 <= H -> 0 <= W -> (H + P) * (W + P) < 2 ^ 53 ->
  patch_dims [H; W] P = Ok [rows; cols] ->
  patch_dims [P * rows; P * cols] P = Ok [rows; cols] /\
  assemble_patches pred_patches [P * rows; P * cols] P
  = assemble_patches pred_patches [H; W] P.
Proof.
  intros HP _ _ _ Hd.
  assert (Hd' : patch_dims [P * rows; P * cols] P = Ok [rows; cols])
    by (apply is_ceil_patch_dims; unfold is_ceil; nia).
  split; [exact Hd'|].
  unfold assemble_patches. now rewrite Hd, Hd'.
Qed.

Lemma assemble_patches_padded_extent_witness :
  (0 < 4 /\ 0 <= 6 /\ (6 + 4) * (6 + 4) < 2 ^ 53) /\
  patch_dims [8; 8] 4 = Ok [2; 2] /\
  assemble_patches (const_patches 4 4) [8; 8] 4
  = assemble_patches (const_patches 4 4) [6; 6] 4.
Proof.
  split; [lia|].
  apply (assemble_patches_padded_extent (const_patches 4 4) 6 6 4 2 2);
    [lia | lia | lia | lia | reflexivity].
Defined.

(** X15: tiling a source of any extent with [(H + P) * (W + P)] below
    2^53, keeping one channel and
    reassembling gives an array of the padded extent
    (P * rows, P * cols) that holds the converted source values over the
    source's own extent and zero in the padding. *)
Theorem roundtrip_pads (mat : ndarray float32) (H W P ch : Z) :
  0 < P -> 0 <= H -> 0 <= W -> (H + P) * (W + P) < 2 ^ 53 ->
  shape mat = [H; W; 4] -> 0 <= ch < 4 ->
  exists (result : ndarray uint8) rows cols,
    roundtrip mat P ch = Ok result /\
    patch_dims [H; W] P = Ok [rows; cols] /\
    shape result = [P * rows; P * cols] /\
    forall r c,
      0 <= r < P * rows -> 0 <= c < P * cols ->
      item result [r; c]
      = if (r <? H) && (c <? W)
        then f32_to_u8 (item mat [r; c; ch])
        else zero.
Proof.
  intros HP HH HW _ Hs Hch.
  pose proof (neg_div_is_ceil H P HP) as Hr.
  pose proof (neg_div_is_ceil W P HP) as Hc.
  set (rows := - ((- H) / P)) in *. set (cols := - ((- W) / P)) in *.
  pose proof (is_ceil_nonneg _ _ _ HP HH Hr) as Hrows.
  pose proof (is_ceil_nonneg _ _ _ HP HW Hc) as Hcols.
  pose proof (is_ceil_patch_dims H W P rows cols HP Hr Hc) as Hd.
  destruct (create_run mat H W rows cols P Hs HP Hr Hc HH HW)
    as (patches & E & Sp & _).
  destruct (channel_planes patches (rows * cols) P ch Sp ltac:(nia)
              ltac:(lia) Hch) as (planes & Eg & Spl & Ipl).
  destruct (assemble_run planes (rows * cols) rows cols P Spl HP
              H W HH HW Hd (Z.le_refl _)) as (res & Ea & Sr & _).
  exists res, rows, cols. split; [|split; [exact Hd|split; [exact Sr|]]].
  - unfold roundtrip. rewrite E. cbn [bind]. rewrite Eg. cbn [bind].
    rewrite Hs. exact Ea.
  - intros r c Hr' Hc'.
    set (y := r / P). set (x := c / P).
    pose proof (Z.div_mod r P ltac:(lia)) as Dr.
    pose proof (Z.div_mod c P ltac:(lia)) as Dc.
    pose proof (Z.mod_pos_bound r P HP) as Br.
    pose proof (Z.mod_pos_bound c P HP) as Bc.
    fold y in Dr. fold x in Dc.
    assert (0 <= y < rows) as Hy by nia.
    assert (0 <= x < cols) as Hx by nia.
    pose proof (patch_id_range rows cols y x Hy Hx) as Hid.
    replace r with (patch_id rows y x mod rows * P + r mod P) at 1
      by (rewrite patch_id_mod by lia; lia).
    replace c with (patch_id rows y x / rows * P + c mod P) at 1
      by (rewrite patch_id_div by lia; lia).
    rewrite (assemble_written planes (rows * cols) rows cols P H W
               HP HH HW Hd Spl (Z.le_refl _) res Ea) by lia.
    rewrite Ipl.
    rewrite (create_cell mat H W rows cols P Hs HP Hr Hc HH HW
               patches y x (r mod P) (c mod P) ch E) by lia.
    replace (y * P + r mod P) with r by lia.
    replace (x * P + c mod P) with c by lia.
    destruct ((r <? H) && (c <? W)); reflexivity.
Qed.

Lemma roundtrip_pads_witness :
  (0 < 4 /\ 0 <= 6 /\ (6 + 4) * (6 + 4) < 2 ^ 53 /\ 0 <= 1 < 4) /\
  exists result : ndarray uint8,
    roundtrip byte_mat 4 1 = Ok result /\
    shape result = [8; 8] /\
    u8_to_Z (item result [5; 3]) = 53 /\
    item result [6; 3] = zero.
Proof.
  split; [lia|].
  destruct (roundtrip_pads byte_mat 6 6 4 1)
    as (result & rows & cols & E & D & S & I);
    [lia | lia | lia | lia | reflexivity | lia |].
  assert (D' : patch_dims [6; 6] 4 = Ok [2; 2]) by reflexivity.
  rewrite D' in D. injection D as <- <-.
  exists result. split; [exact E|]. split; [exact S|].
  rewrite !I by lia. split; reflexivity.
Defined.

(** ** [get_final_output] *)

(** Multiplying by 1.0 changes no [float32]. *)
Lemma f32_mul_one_finite s m e :
  bounded 24 128 m e = true ->
  f32_mul f32_one (S754_finite s m e) = S754_finite s m e.
Proof.
  intros B. unfold bounded, canonical_mantissa in B.
  apply andb_true_iff in B. destruct B as [C L].
  apply Z.eqb_eq in C.
  unfold f32_mul, f32_one, SFmul. cbn [xorb].
  unfold binary_round_aux.
  assert (E1 : shr_fexp 24 128 (Z.pos (8388608 * m)) (-23 + e) loc_Exact
               = ({| shr_m := Z.pos m; shr_r := false; shr_s := false |}, e)).
  { unfold shr_fexp, Zdigits2.
    replace (Z.pos (digits2_pos (8388608 * m)))
      with (Z.pos (digits2_pos m) + 23)
      by (cbn [Pos.mul digits2_pos]; lia).
    replace (Z.pos (digits2_pos m) + 23 + (-23 + e))
      with (Z.pos (digits2_pos m) + e) by lia.
    rewrite C. replace (e - (-23 + e)) with 23 by lia.
    unfold shr. replace (-23 + e + 23) with e by lia. reflexivity. }
  rewrite E1. cbn [shr_m loc_of_shr_record round_nearest_even].
  assert (E2 : shr_fexp 24 128 (Z.pos m) e loc_Exact
               = ({| shr_m := Z.pos m; shr_r := false; shr_s := false |}, e)).
  { unfold shr_fexp, Zdigits2. rewrite C, Z.sub_diag. reflexivity. }
  rewrite E2. cbn [shr_m]. rewrite L. reflexivity.
Qed.

Lemma f32_mul_one v : f32_valid v = true -> f32_mul f32_one v = v.
Proof.
  destruct v as [s|s| |s m e]; intros V; try reflexivity.
  now apply f32_mul_one_finite.
Qed.

Lemma u8_to_f32_kept t so :
  f32_add (f32_mul f32_one (u8_to_f32 t)) (S754_zero so) = u8_to_f32 t.
Proof. destruct t, so; reflexivity. Qed.

Lemma u8_to_f32_masked t :
  f32_mul (S754_zero false) (u8_to_f32 t) = S754_zero false.
Proof. destruct t; reflexivity. Qed.

Lemma u8_to_f32_nan t : f32_add (f32_mul f32_one (u8_to_f32 t)) S754_nan = S754_nan.
Proof. destruct t; reflexivity. Qed.

Lemma final_cell_known uc t o :
  u8_to_Z t <> uc -> f32_finite o = true ->
  final_cell uc t o = u8_to_f32 t.
Proof.
  intros Hne Hf. unfold final_cell.
  apply Z.eqb_neq in Hne. rewrite Hne.
  change (f32_sub f32_one zero) with f32_one.
  destruct o as [s|s| |s m e]; try discriminate; apply u8_to_f32_kept.
Qed.

Lemma final_cell_unknown uc t o :
  u8_to_Z t = uc -> f32_valid o = true ->
  final_cell uc t o = drop_zero_sign o.
Proof.
  intros He Hv. unfold final_cell.
  apply Z.eqb_eq in He. rewrite He.
  change (f32_sub f32_one f32_one) with (S754_zero false).
  rewrite u8_to_f32_masked, f32_mul_one by assumption.
  destruct o as [[|]|[|]| |s m e]; reflexivity.
Qed.

Lemma final_cell_poisoned uc t o :
  u8_to_Z t <> uc -> f32_finite o = false ->
  final_cell uc t o = S754_nan.
Proof.
  intros Hne Hf. unfold final_cell.
  apply Z.eqb_neq in Hne. rewrite Hne.
  change (f32_sub f32_one zero) with f32_one.
  destruct o as [s|s| |s m e]; try discriminate; apply u8_to_f32_nan.
Qed.

Lemma merge_axes_same l : merge_axes l l = Some l.
Proof.
  induction l as [|x l IH]; cbn [merge_axes]; [reflexivity|].
  rewrite Z.eqb_refl. cbn [orb]. now rewrite IH.
Qed.

Lemma broadcast_shapes_same s : broadcast_shapes s s = Some s.
Proof.
  unfold broadcast_shapes. rewrite merge_axes_same. cbn [option_map].
  now rewrite rev_involutive.
Qed.

Lemma aligned_same s :
  exists f, aligned s s = Some f /\
            forall idx, in_bounds idx s -> f idx = idx.
Proof.
  induction s as [|v s (f & E & I)]; cbn [aligned].
  - eexists. split; [reflexivity|]. intros idx Hb. now inversion Hb.
  - rewrite Z.eqb_refl, E. cbn [orb].
    eexists. split; [reflexivity|].
    intros idx Hb. inversion Hb as [|k n idx' s' Hk Hb']; subst.
    rewrite (I idx' Hb'). f_equal.
    destruct (Z.eqb_spec v 1); lia.
Qed.

Lemma strip_ones_0 s : strip_ones 0 s = s.
Proof. destruct s; reflexivity. Qed.

Lemma broadcast_same s :
  exists f, broadcast s s = Some f /\
            forall idx, in_bounds idx s -> f idx = idx.
Proof.
  destruct (aligned_same s) as (f & E & I).
  unfold broadcast. rewrite Nat.sub_diag, strip_ones_0, Nat.sub_diag.
  rewrite Nat.ltb_irrefl. cbn [skipn]. rewrite E.
  eexists. split; [reflexivity|].
  intros idx Hb. cbn [repeat app skipn]. now apply I.
Qed.

Lemma np_binop_same {A B C : Type} (f : A -> B -> C)
  (a : ndarray A) (b : ndarray B) s :
  shape a = s -> shape b = s ->
  exists c,
    np_binop f a b = Ok c /\ shape c = s /\
    forall idx, in_bounds idx s ->
                item c idx = f (item a idx) (item b idx).
Proof.
  intros Ha Hb. unfold np_binop. rewrite Ha, Hb, broadcast_shapes_same.
  destruct (broadcast_same s) as (g & E & I). rewrite E.
  eexists. split; [reflexivity|]. split; [reflexivity|].
  intros idx Hi. cbn [item]. now rewrite (I idx Hi).
Qed.

Lemma get_final_output_run uc (out : ndarray float32) (trimap : ndarray uint8) :
  shape out = shape trimap ->
  exists res,
    get_final_output uc out trimap = Ok res /\
    shape res = shape trimap /\
    forall idx, in_bounds idx (shape trimap) ->
      item res idx = final_cell uc (item trimap idx) (item out idx).
Proof.
  intros Hs. unfold get_final_output.
  set (mask := np_map _ trimap).
  destruct (np_binop_same (fun m t => f32_mul m (u8_to_f32 t))
              (np_map (f32_sub f32_one) mask) trimap (shape trimap)
              eq_refl eq_refl) as (known & E1 & S1 & I1).
  rewrite E1. cbn [bind].
  destruct (np_binop_same f32_mul mask out (shape trimap) eq_refl Hs)
    as (unknown & E2 & S2 & I2).
  rewrite E2. cbn [bind].
  destruct (np_binop_same f32_add known unknown (shape trimap) S1 S2)
    as (res & E3 & S3 & I3).
  exists res. split; [exact E3|]. split; [exact S3|].
  intros idx Hb. rewrite (I3 idx Hb), (I1 idx Hb), (I2 idx Hb).
  reflexivity.
Qed.

Lemma u8_to_f32_exact t : f32_is_int (u8_to_f32 t) (u8_to_Z t) = true.
Proof. destruct t; reflexivity. Qed.

(** X16: where the trimap is known (its value differs from
    [unknown_code]) and the prediction is a number, the output is the
    trimap value itself, converted exactly to float32; the prediction
    there plays no part. *)
Theorem get_final_output_known (unknown_code : Z)
  (out : ndarray float32) (trimap : ndarray uint8) :
  shape out = shape trimap ->
  exists res,
    get_final_output unknown_code out trimap = Ok res /\
    shape res = shape trimap /\
    forall idx,
      in_bounds idx (shape trimap) ->
      u8_to_Z (item trimap idx) <> unknown_code ->
      f32_finite (item out idx) = true ->
      item res idx = u8_to_f32 (item trimap idx) /\
      f32_is_int (item res idx) (u8_to_Z (item trimap idx)) = true.
Proof.
  intros Hs.
  destruct (get_final_output_run unknown_code out trimap Hs)
    as (res & E & S & I).
  exists res. split; [exact E|]. split; [exact S|].
  intros idx Hb Hne Hf. rewrite (I idx Hb).
  rewrite final_cell_known by assumption.
  split; [reflexivity | apply u8_to_f32_exact].
Qed.

Lemma get_final_output_known_witness :
  shape sample_out = shape sample_trimap /\
  exists res,
    get_final_output 128 sample_out sample_trimap = Ok res /\
    f32_is_int (item res [0; 0]) 0 = true.
Proof.
  split; [reflexivity|].
  destruct (get_final_output_known 128 sample_out sample_trimap eq_refl)
    as (res & E & _ & I).
  exists res. split; [exact E|].
  apply (I [0; 0]).
  - repeat constructor; lia.
  - cbn. lia.
  - reflexivity.
Defined.

(** X17: where the trimap is unknown the output is the prediction,
    unchanged, except that a negative zero comes out as positive zero. *)
Theorem get_final_output_unknown (unknown_code : Z)
  (out : ndarray float32) (trimap : ndarray uint8) :
  shape out = shape trimap ->
  exists res,
    get_final_output unknown_code out trimap = Ok res /\
    shape res = shape trimap /\
    forall idx,
      in_bounds idx (shape trimap) ->
      u8_to_Z (item trimap idx) = unknown_code ->
      f32_valid (item out idx) = true ->
      item res idx = drop_zero_sign (item out idx).
Proof.
  intros Hs.
  destruct (get_final_output_run unknown_code out trimap Hs)
    as (res & E & S & I).
  exists res. split; [exact E|]. split; [exact S|].
  intros idx Hb He Hv. rewrite (I idx Hb).
  now apply final_cell_unknown.
Qed.

Lemma get_final_output_unknown_witness :
  shape sample_out = shape sample_trimap /\
  exists res,
    get_final_output 128 sample_out sample_trimap = Ok res /\
    item res [0; 1] = item sample_out [0; 1] /\
    item res [1; 1] = S754_zero false.
Proof.
  split; [reflexivity|].
  destruct (get_final_output_unknown 128 sample_out sample_trimap eq_refl)
    as (res & E & _ & I).
  exists res. split; [exact E|]. split.
  - apply (I [0; 1]); [repeat constructor; lia | reflexivity | reflexivity].
  - apply (I [1; 1]); [repeat constructor; lia | reflexivity | reflexivity].
Defined.

(** X18: a prediction that is an infinity or a NaN spoils a known pixel:
    the output there is NaN, not the trimap value. *)
Theorem get_final_output_poisoned (unknown_code : Z)
  (out : ndarray float32) (trimap : ndarray uint8) :
  shape out = shape trimap ->
  exists res,
    get_final_output unknown_code out trimap = Ok res /\
    shape res = shape trimap /\
    forall idx,
      in_bounds idx (shape trimap) ->
      u8_to_Z (item trimap idx) <> unknown_code ->
      f32_finite (item out idx) = false ->
      item res idx = S754_nan.
Proof.
  intros Hs.
  destruct (get_final_output_run unknown_code out trimap Hs)
    as (res & E & S & I).
  exists res. split; [exact E|]. split; [exact S|].
  intros idx Hb Hne Hf. rewrite (I idx Hb).
  now apply final_cell_poisoned.
Qed.

Lemma get_final_output_poisoned_witness :
  shape sample_out = shape sample_trimap /\
  exists res,
    get_final_output 128 sample_out sample_trimap = Ok res /\
    item res [1; 0] = S754_nan.
Proof.
  split; [reflexivity|].
  destruct (get_final_output_poisoned 128 sample_out sample_trimap eq_refl)
    as (res & E & _ & I).
  exists res. split; [exact E|].
  apply (I [1; 0]).
  - repeat constructor; lia.
  - cbn. lia.
  - reflexivity.
Defined.

(** X19: a prediction and a trimap whose last axes differ, neither being
    of length 1, cannot be combined: the call raises [ValueError]. *)
Theorem get_final_output_shape_mismatch (unknown_code : Z)
  (out : ndarray float32) (trimap : ndarray uint8)
  (so st : list Z) (a b : Z) :
  shape out = so ++ [a] -> shape trimap = st ++ [b] ->
  a <> b -> a <> 1 -> b <> 1 ->
  get_final_output unknown_code out trimap = Raise ValueError.
Proof.
  intros Ho Ht Hab Ha Hb. unfold get_final_output.
  set (mask := np_map _ trimap).
  destruct (np_binop_same (fun m t => f32_mul m (u8_to_f32 t))
              (np_map (f32_sub f32_one) mask) trimap (shape trimap)
              eq_refl eq_refl) as (known & E1 & _).
  rewrite E1. cbn [bind].
  unfold np_binop at 1. cbn [mask np_map shape].
  unfold broadcast_shapes. rewrite Ho, Ht, !rev_unit. cbn [merge_axes].
  replace (b =? a) with false by (symmetry; apply Z.eqb_neq; lia).
  replace (a =? 1) with false by (symmetry; apply Z.eqb_neq; lia).
  replace (b =? 1) with false by (symmetry; apply Z.eqb_neq; lia).
  reflexivity.
Qed.

Lemma get_final_output_shape_mismatch_witness :
  (3 <> 2 /\ 3 <> 1 /\ 2 <> 1) /\
  get_final_output 128 (mk_ndarray [2; 3] (item sample_out)) sample_trimap
  = Raise ValueError.
Proof.
  split; [lia|].
  apply (get_final_output_shape_mismatch 128
           (mk_ndarray [2; 3] (item sample_out)) sample_trimap [2] [2] 3 2);
    [reflexivity | reflexivity | lia | lia | lia].
Defined.
